(** * Chat front end: reply handling and request life cycle of [src/App.js]

    A shallow embedding of the React component [ReactChatbot]: its four
    state cells ([input], [messages], [loading], [error]), the helper
    [addMessage], the asynchronous [sendMessage] and the event handlers
    that call it.

    Conventions.
    - A JavaScript string is a Rocq [string] holding its UTF-8 bytes.
    - A decoded JSON number is kept as the text that [String(n)] prints for
      it; the component never computes with numbers, it only prints them.
    - The JavaScript built-ins the component calls ([trim], [slice],
      [String], [JSON.stringify], property reads, [??], truthiness) are
      modelled on the values a decoded JSON document can hold.
    - React state lives in a record [World], next to what the component does
      to its surroundings: the requests handed to [fetch] and the values it
      draws from [Date.now] and [Math.random]. *)

From Stdlib Require Import String Ascii List Bool Arith NArith Lia.
From Stdlib Require Import DecimalString DecimalN DecimalFacts.
Import ListNotations.
Local Open Scope string_scope.
Local Open Scope nat_scope.
Local Set Warnings "-register-all".

(** ** Strings *)

Module Js.

(** The double quote and the backslash, as characters. *)
Definition dquote : ascii := ascii_of_nat 34.
Definition backslash : ascii := ascii_of_nat 92.

(** A string given by the codes of its bytes. *)
Definition bytes (l : list nat) : string :=
  string_of_list_ascii (map ascii_of_nat l).

(** [String(n)] for a non-negative integer [n]: its decimal digits. *)
Definition N_to_string (n : N) : string :=
  NilEmpty.string_of_uint (N.to_uint n).

(** [s.slice(from, to)] for non-negative indices. *)
Definition slice (s : string) (from to : nat) : string :=
  substring from (to - from) s.

(** White space and line terminators of ECMAScript that take one byte:
    TAB, LF, VT, FF, CR, SP. *)
Definition ws1 (a : ascii) : bool :=
  let n := nat_of_ascii a in
  ((9 <=? n) && (n <=? 13)) || (n =? 32).

(** Two bytes: U+00A0. *)
Definition ws2 (a b : ascii) : bool :=
  (nat_of_ascii a =? 194) && (nat_of_ascii b =? 160).

(** Three bytes: U+1680, U+2000..U+200A, U+2028, U+2029, U+202F, U+205F,
    U+3000, U+FEFF. *)
Definition ws3 (a b c : ascii) : bool :=
  let x := nat_of_ascii a in
  let y := nat_of_ascii b in
  let z := nat_of_ascii c in
  ((x =? 225) && (y =? 154) && (z =? 128))
  || ((x =? 226) && (y =? 128)
      && (((128 <=? z) && (z <=? 138)) || (z =? 168) || (z =? 169) || (z =? 175)))
  || ((x =? 226) && (y =? 129) && (z =? 159))
  || ((x =? 227) && (y =? 128) && (z =? 128))
  || ((x =? 239) && (y =? 187) && (z =? 191)).

(** Drop the white space a byte list starts with.  With [mirror] the list is
    read back to front, so the bytes of a character come in reverse. *)
Fixpoint drop_white (mirror : bool) (l : list ascii) : list ascii :=
  match l with
  | a :: l1 =>
      if ws1 a then drop_white mirror l1
      else
        match l1 with
        | b :: l2 =>
            if (if mirror then ws2 b a else ws2 a b) then drop_white mirror l2
            else
              match l2 with
              | c :: l3 =>
                  if (if mirror then ws3 c b a else ws3 a b c)
                  then drop_white mirror l3
                  else l
              | [] => l
              end
        | [] => l
        end
  | [] => l
  end.

(** [s.trim()] *)
Definition trim (s : string) : string :=
  string_of_list_ascii
    (rev (drop_white true (rev (drop_white false (list_ascii_of_string s))))).

(** ** Decoded JSON values *)

(** What [resp.json()] can resolve to.  The fields of an object are its own
    properties in enumeration order, each key once. *)
Inductive json : Type :=
| JNull
| JBool (b : bool)
| JNumber (repr : string)
| JString (s : string)
| JArray (items : list json)
| JObject (fields : list (string * json)).

(** A value that was thrown, or that a promise was rejected with: an error
    object with its [message], or anything on which [err?.message] is
    [undefined] or [null]. *)
Inductive Thrown : Type :=
| ErrorObject (message : string)
| NoMessage.

(** How an evaluation ends: with a value, or by throwing. *)
Inductive Completion (A : Type) : Type :=
| Normal (a : A)
| Throw (e : Thrown).
Arguments Normal {A} a.
Arguments Throw {A} e.

(** The [TypeError]s the component can provoke, with V8's wording. *)
Definition TypeError_read_null (key : string) : Thrown :=
  ErrorObject ("Cannot read properties of null (reading '" ++ key ++ "')").
Definition TypeError_to_primitive : Thrown :=
  ErrorObject "Cannot convert object to primitive value".

(** Own property lookup. *)
Fixpoint assoc (key : string) (fields : list (string * json)) : option json :=
  match fields with
  | [] => None
  | (k, v) :: rest => if String.eqb k key then Some v else assoc key rest
  end.

(** [v.key] for a key that no built-in prototype defines ([reply],
    [messages], [role], [content] and [text] are such keys): [None] is
    [undefined]; reading a property of [null] throws. *)
Definition get (v : json) (key : string) : Completion (option json) :=
  match v with
  | JNull => Throw (TypeError_read_null key)
  | JObject fields => Normal (assoc key fields)
  | _ => Normal None
  end.

(** Truthiness of a value that may be [undefined]. *)
Definition truthy (v : option json) : bool :=
  match v with
  | None | Some JNull => false
  | Some (JBool b) => b
  | Some (JNumber r) => negb (String.eqb r "0" || String.eqb r "NaN")
  | Some (JString s) => negb (String.eqb s "")
  | Some (JArray _) | Some (JObject _) => true
  end.

(** [typeof v === "string"] *)
Definition is_string (v : option json) : bool :=
  match v with Some (JString _) => true | _ => false end.

(** [Array.isArray(v)] *)
Definition Array_isArray (v : option json) : bool :=
  match v with Some (JArray _) => true | _ => false end.

(** [v === s] for a string literal [s] *)
Definition strict_eq_string (v : option json) (s : string) : bool :=
  match v with Some (JString t) => String.eqb t s | _ => false end.

(** [a ?? b] *)
Definition nullish (a b : option json) : option json :=
  match a with
  | None | Some JNull => b
  | Some _ => a
  end.

(** [String(v)].  An array prints its elements separated by commas, [null]
    elements as nothing.  An object prints as [[object Object]]; when it has
    an own property [toString] (never a function in decoded JSON) neither
    that nor [Object.prototype.valueOf] yields a primitive, and the
    conversion throws. *)
Fixpoint ToString (v : json) : Completion string :=
  match v with
  | JNull => Normal "null"
  | JBool b => Normal (if b then "true" else "false")
  | JNumber r => Normal r
  | JString s => Normal s
  | JArray items =>
      (fix join (l : list json) : Completion string :=
         match l with
         | [] => Normal ""
         | x :: rest =>
             match (match x with JNull => Normal "" | _ => ToString x end) with
             | Throw e => Throw e
             | Normal sx =>
                 match rest with
                 | [] => Normal sx
                 | _ :: _ =>
                     match join rest with
                     | Throw e => Throw e
                     | Normal sr => Normal (sx ++ "," ++ sr)
                     end
                 end
             end
         end) items
  | JObject fields =>
      match assoc "toString" fields with
      | Some _ => Throw TypeError_to_primitive
      | None => Normal "[object Object]"
      end
  end.

(** The text of one element inside a printed array, and the elements
    joined by commas: the array case of [ToString], on its own. *)
Definition element_string (x : json) : Completion string :=
  match x with
  | JNull => Normal ""
  | _ => ToString x
  end.

Fixpoint join (l : list json) : Completion string :=
  match l with
  | [] => Normal ""
  | x :: rest =>
      match element_string x with
      | Throw e => Throw e
      | Normal sx =>
          match rest with
          | [] => Normal sx
          | _ :: _ =>
              match join rest with
              | Throw e => Throw e
              | Normal sr => Normal (sx ++ "," ++ sr)
              end
          end
      end
  end.

(** [String(v)] where [v] may be [undefined]. *)
Definition String_ (v : option json) : Completion string :=
  match v with
  | None => Normal "undefined"
  | Some j => ToString j
  end.

Definition hex_digit (n : nat) : string :=
  substring n 1 "0123456789abcdef".

(** One character inside a JSON string literal. *)
Definition escape (c : ascii) : string :=
  let n := nat_of_ascii c in
  if n =? 8 then String backslash "b"
  else if n =? 9 then String backslash "t"
  else if n =? 10 then String backslash "n"
  else if n =? 12 then String backslash "f"
  else if n =? 13 then String backslash "r"
  else if n =? 34 then String backslash (String dquote "")
  else if n =? 92 then String backslash (String backslash "")
  else if n <? 32 then
    String backslash "u00" ++ hex_digit (n / 16) ++ hex_digit (n mod 16)
  else String c "".

(** [JSON.stringify(s)] for a string. *)
Definition QuoteJSONString (s : string) : string :=
  String dquote (String.concat "" (map escape (list_ascii_of_string s)))
  ++ String dquote "".

(** [JSON.stringify(v)].  Infinite numbers print as [null]. *)
Fixpoint JSON_stringify (v : json) : string :=
  match v with
  | JNull => "null"
  | JBool b => if b then "true" else "false"
  | JNumber r =>
      if String.eqb r "Infinity" || String.eqb r "-Infinity" || String.eqb r "NaN"
      then "null" else r
  | JString s => QuoteJSONString s
  | JArray items =>
      "[" ++
      (fix elements (l : list json) : string :=
         match l with
         | [] => ""
         | x :: rest =>
             match rest with
             | [] => JSON_stringify x
             | _ :: _ => JSON_stringify x ++ "," ++ elements rest
             end
         end) items
      ++ "]"
  | JObject fields =>
      "{" ++
      (fix members (l : list (string * json)) : string :=
         match l with
         | [] => ""
         | (k, x) :: rest =>
             match rest with
             | [] => QuoteJSONString k ++ ":" ++ JSON_stringify x
             | _ :: _ =>
                 QuoteJSONString k ++ ":" ++ JSON_stringify x ++ "," ++ members rest
             end
         end) fields
      ++ "}"
  end.

End Js.


(** ** The component *)

Module App.
Import Js.

(** What the component reads from its surroundings: the build-time variable
    [process.env.REACT_APP_API_URL] ([None] when unset), and the values of
    [Date.now()] and of [Math.random().toString(36)] at the [n]-th draw of
    an identifier. *)
Record Env : Type := {
  REACT_APP_API_URL : option string;
  Date_now : nat -> N;
  Math_random_36 : nat -> string
}.

(** [process.env.REACT_APP_API_URL || "http://localhost:8000"] *)
Definition API_URL (e : Env) : string :=
  match REACT_APP_API_URL e with
  | Some u => if String.eqb u "" then "http://localhost:8000" else u
  | None => "http://localhost:8000"
  end.

Record Message : Type := {
  id : string;
  role : string;
  content : string
}.

(** The arguments of one call of [fetch]. *)
Record Request : Type := {
  url : string;
  method : string;
  headers : list (string * string);
  body : string
}.

(** The four state cells of the component, the requests it has issued
    (oldest first), the number of [sendMessage] calls suspended at their
    [await fetch], the number of identifiers drawn so far, and the
    surroundings. *)
Record World : Type := {
  input : string;
  messages : list Message;
  loading : bool;
  error : option string;
  network : list Request;
  suspended : nat;
  drawn : nat;
  env : Env
}.

(** Code that reads and writes the state and may throw; what it wrote
    before throwing stays written. *)
Definition M (A : Type) : Type := World -> Completion A * World.

Definition ret {A : Type} (a : A) : M A := fun w => (Normal a, w).

Definition bind {A B : Type} (m : M A) (k : A -> M B) : M B :=
  fun w =>
    match m w with
    | (Normal a, w') => k a w'
    | (Throw e, w') => (Throw e, w')
    end.

Definition throw {A : Type} (e : Thrown) : M A := fun w => (Throw e, w).

(** A pure evaluation inside stateful code. *)
Definition lift {A : Type} (c : Completion A) : M A := fun w => (c, w).

(** [try { body } catch (err) { handler } finally { cleanup }] *)
Definition try_catch_finally (body : M unit) (handler : Thrown -> M unit)
    (cleanup : M unit) : M unit :=
  fun w =>
    let after :=
      match body w with
      | (Normal tt, w') => (Normal tt, w')
      | (Throw e, w') => handler e w'
      end in
    match cleanup (snd after) with
    | (Normal tt, w'') => (fst after, w'')
    | (Throw e, w'') => (Throw e, w'')
    end.

(** [array.forEach(callback)] *)
Fixpoint forEach (array : list json) (callback : json -> M unit) : M unit :=
  match array with
  | [] => ret tt
  | x :: rest => bind (callback x) (fun _ => forEach rest callback)
  end.

Definition exec {A : Type} (m : M A) (w : World) : World := snd (m w).

Declare Scope js_scope.
Delimit Scope js_scope with js.
Notation "x <- m ;; k" := (bind m (fun x => k))
  (at level 61, m at next level, right associativity) : js_scope.
Notation "m ;; k" := (bind m (fun _ => k))
  (at level 61, right associativity) : js_scope.
Local Open Scope js_scope.

(** The state setters. *)
Definition setInput (v : string) : M unit := fun w =>
  (Normal tt,
   {| input := v; messages := messages w; loading := loading w;
      error := error w; network := network w; suspended := suspended w;
      drawn := drawn w; env := env w |}).

Definition setMessages (f : list Message -> list Message) : M unit := fun w =>
  (Normal tt,
   {| input := input w; messages := f (messages w); loading := loading w;
      error := error w; network := network w; suspended := suspended w;
      drawn := drawn w; env := env w |}).

Definition setLoading (b : bool) : M unit := fun w =>
  (Normal tt,
   {| input := input w; messages := messages w; loading := b;
      error := error w; network := network w; suspended := suspended w;
      drawn := drawn w; env := env w |}).

Definition setError (e : option string) : M unit := fun w =>
  (Normal tt,
   {| input := input w; messages := messages w; loading := loading w;
      error := e; network := network w; suspended := suspended w;
      drawn := drawn w; env := env w |}).

(** One more draw of [Date.now()] and [Math.random()]: returns its index. *)
Definition draw : M nat := fun w =>
  (Normal (drawn w),
   {| input := input w; messages := messages w; loading := loading w;
      error := error w; network := network w; suspended := suspended w;
      drawn := S (drawn w); env := env w |}).

(** [fetch(url, options)]: the request leaves, the caller is suspended. *)
Definition fetch (r : Request) : M unit := fun w =>
  (Normal tt,
   {| input := input w; messages := messages w; loading := loading w;
      error := error w; network := (network w ++ [r])%list;
      suspended := S (suspended w); drawn := drawn w; env := env w |}).

(** A suspended call is resumed. *)
Definition wake (w : World) : World :=
  {| input := input w; messages := messages w; loading := loading w;
     error := error w; network := network w; suspended := pred (suspended w);
     drawn := drawn w; env := env w |}.

Definition ask : M Env := fun w => (Normal (env w), w).

(** [function addMessage(role, content)]: the new message goes last; its
    identifier is
    [`m-${Date.now()}-${Math.random().toString(36).slice(2, 8)}`]. *)
Definition addMessage (role content : string) : M unit :=
  e <- ask ;;
  n <- draw ;;
  setMessages (fun m =>
    (m ++ [ {| id := "m-" ++ N_to_string (Date_now e n) ++ "-"
                     ++ slice (Math_random_36 e n) 2 8;
               role := role;
               content := content |} ])%list).

(** The effect run once after mounting: the conversation becomes the
    welcome message, with identifier [`m-${Date.now()}`]. *)
Definition welcome : M unit :=
  e <- ask ;;
  n <- draw ;;
  setMessages (fun _ =>
    [ {| id := "m-" ++ N_to_string (Date_now e n);
         role := "assistant";
         content := "Write a topic for research." |} ]).

(** The text shown when no reply could be obtained.  The source file holds
    the eight bytes of a mis-decoded dash between "Sorry" and "I". *)
Definition apology : string :=
  "Sorry " ++ bytes [195; 162; 226; 130; 172; 226; 128; 157]
  ++ " I couldn't get a reply from the server.".

(** A value known to be a string, as a string. *)
Definition as_string (v : option json) : string :=
  match v with Some (JString s) => s | _ => "" end.

(** A value known to be an array, as a list. *)
Definition as_array (v : option json) : list json :=
  match v with Some (JArray items) => items | _ => [] end.

(** The callback of [data.messages.forEach]. *)
Definition show_entry (msg : json) : M unit :=
  r <- lift (get msg "role") ;;
  let role :=
    if strict_eq_string r "user" then "user"
    else if strict_eq_string r "system" then "system"
    else "assistant" in
  c <- lift (get msg "content") ;;
  t <- lift (get msg "text") ;;
  s <- lift (String_ (nullish (nullish c t) (Some (JString "")))) ;;
  addMessage role s.

(** The four-way case distinction of [sendMessage] on the decoded reply
    (the statement under the comment "flexible handling depending on your
    FastAPI response shape"). *)
Definition show_reply (data : json) : M unit :=
  reply <- lift (get data "reply") ;;
  if truthy reply && is_string reply then
    addMessage "assistant" (as_string reply)
  else
    msgs <- lift (get data "messages") ;;
    if Array_isArray msgs then
      forEach (as_array msgs) show_entry
    else if is_string (Some data) then
      addMessage "assistant" (as_string (Some data))
    else
      addMessage "assistant" (JSON_stringify data).

(** How a promise settles. *)
Inductive Settled (A : Type) : Type :=
| Fulfilled (a : A)
| Rejected (reason : Thrown).
Arguments Fulfilled {A} a.
Arguments Rejected {A} reason.

(** A response: its status, and what [resp.text()] and [resp.json()]
    settle to. *)
Record Response : Type := {
  resp_status : N;
  resp_text : Settled string;
  resp_json : Settled json
}.

(** [resp.ok]: the status is in the range 200 to 299. *)
Definition resp_ok (r : Response) : bool :=
  (200 <=? resp_status r)%N && (resp_status r <=? 299)%N.

Definition await {A : Type} (p : Settled A) : M A :=
  match p with
  | Fulfilled a => ret a
  | Rejected e => throw e
  end.

(** [err?.message ?? "Unknown error"] *)
Definition message_of (err : Thrown) : string :=
  match err with
  | ErrorObject m => m
  | NoMessage => "Unknown error"
  end.

(** [sendMessage], from its first statement to the call of [fetch]. *)
Definition sendMessage_begin : M unit := fun w =>
  (let trimmed := trim (input w) in
   if String.eqb trimmed "" then ret tt
   else
     setError None ;;
     addMessage "user" trimmed ;;
     setInput "" ;;
     setLoading true ;;
     e <- ask ;;
     fetch {| url := API_URL e ++ "/research";
              method := "POST";
              headers := [("Content-Type", "application/json")];
              body := JSON_stringify (JObject [("query", JString trimmed)]) |}) w.

(** [sendMessage], from the moment the promise of [fetch] settles to the
    end: the rest of the [try] block, [catch] and [finally]. *)
Definition sendMessage_resume (fetched : Settled Response) : M unit :=
  try_catch_finally
    (resp <- await fetched ;;
     (if negb (resp_ok resp) then
        text <- await (resp_text resp) ;;
        throw (ErrorObject ("Backend error: " ++ N_to_string (resp_status resp)
                            ++ " " ++ text))
      else ret tt) ;;
     data <- await (resp_json resp) ;;
     show_reply data)
    (fun err =>
       setError (Some (message_of err)) ;;
       addMessage "assistant" apology)
    (setLoading false).

(** ** Events *)

(** What can happen to the mounted component: the text area changes, a key
    goes down in it, the Send button is clicked, the [fetch] of a suspended
    [sendMessage] settles. *)
Inductive Event : Type :=
| Change (value : string)
| KeyDown (key : string) (shiftKey : bool)
| ClickSend
| Settle (fetched : Settled Response).

(** [handleKeyDown], the form's [onSubmit] behind the button (which is
    [disabled={loading}]), [onChange], and the resumption of [sendMessage]. *)
Definition step (ev : Event) (w : World) : World :=
  match ev with
  | Change value => exec (setInput value) w
  | KeyDown key shiftKey =>
      if String.eqb key "Enter" && negb shiftKey
      then exec sendMessage_begin w
      else w
  | ClickSend =>
      if loading w then w else exec sendMessage_begin w
  | Settle fetched =>
      match suspended w with
      | O => w
      | S _ => exec (sendMessage_resume fetched) (wake w)
      end
  end.

Definition run (evs : list Event) (w : World) : World :=
  fold_left (fun w ev => step ev w) evs w.

(** The state cells as [useState] initialises them. *)
Definition initial (e : Env) : World :=
  {| input := ""; messages := []; loading := false; error := None;
     network := []; suspended := 0; drawn := 0; env := e |}.

(** The component once mounted. *)
Definition mounted (e : Env) : World := exec welcome (initial e).

End App.


(** ** Vocabulary of the properties *)

Import Js App.
Local Open Scope js_scope.

(** The role and the content of a message, without its identifier. *)
Definition role_content (m : Message) : string * string :=
  (role m, content m).

(** The roles a message may carry. *)
Definition valid_role (r : string) : Prop :=
  r = "user" \/ r = "assistant" \/ r = "system".

(** The identifier that the [n]-th draw gives to the welcome message and to
    a message added by [addMessage]. *)
Definition welcome_id (e : Env) (n : nat) : string :=
  "m-" ++ N_to_string (Date_now e n).

Definition message_id (e : Env) (n : nat) : string :=
  "m-" ++ N_to_string (Date_now e n) ++ "-" ++ slice (Math_random_36 e n) 2 8.

(** What the [n]-th draw contributes to an identifier: the time stamp and
    six digits of the random number. *)
Definition stamp (e : Env) (n : nat) : N * string :=
  (Date_now e n, slice (Math_random_36 e n) 2 8).

(** Among the first [n] draws, those made by [addMessage] (all but draw 0,
    which the welcome message takes) have pairwise different stamps. *)
Definition distinct_draws (e : Env) (n : nat) : Prop :=
  forall i j, 0 < i -> i < j -> j < n -> stamp e i <> stamp e j.

Definition is_digit (c : ascii) : bool :=
  (48 <=? nat_of_ascii c) && (nat_of_ascii c <=? 57).

Fixpoint digits_only (s : string) : bool :=
  match s with
  | EmptyString => true
  | String c s' => is_digit c && digits_only s'
  end.

(** [w'] is [w] with the messages [l] added at the end, by [length l] draws,
    and nothing sent. *)
Record Grows (w w' : World) (l : list Message) : Prop := {
  grows_messages : messages w' = (messages w ++ l)%list;
  grows_ids : map id l = map (message_id (env w)) (seq (drawn w) (length l));
  grows_roles : Forall (fun m => valid_role (role m)) l;
  grows_drawn : drawn w' = drawn w + length l;
  grows_env : env w' = env w;
  grows_network : network w' = network w;
  grows_suspended : suspended w' = suspended w
}.

(** The part of [Grows] that also holds when a request is sent. *)
Record Extends (w w' : World) (l : list Message) : Prop := {
  extends_messages : messages w' = (messages w ++ l)%list;
  extends_ids : map id l = map (message_id (env w)) (seq (drawn w) (length l));
  extends_roles : Forall (fun m => valid_role (role m)) l;
  extends_drawn : drawn w' = drawn w + length l;
  extends_env : env w' = env w
}.

(** What holds of the conversation in every state the mounted component
    can reach. *)
Record Sound (w : World) : Prop := {
  sound_drawn : 1 <= drawn w;
  sound_ids :
    map id (messages w)
    = welcome_id (env w) 0 :: map (message_id (env w)) (seq 1 (drawn w - 1));
  sound_roles : Forall (fun m => valid_role (role m)) (messages w)
}.

(** *** The reply rules in the words of the specification *)

(** A field of an entry; an entry that is not an object has none. *)
Definition field (entry : json) (key : string) : option json :=
  match entry with
  | JObject fields => assoc key fields
  | _ => None
  end.

(** A field that is there and is not [null]. *)
Definition present (v : option json) : bool :=
  match v with
  | None | Some JNull => false
  | Some _ => true
  end.

(** Rule 2, the role: [user], [system], else [assistant]. *)
Definition spec_role (entry : json) : string :=
  match field entry "role" with
  | Some (JString r) =>
      if String.eqb r "user" then "user"
      else if String.eqb r "system" then "system"
      else "assistant"
  | _ => "assistant"
  end.

(** Rule 2, the content before coercion: [content] if present, else [text]
    if present, else the empty string; a [null] field counts as absent. *)
Definition spec_content (entry : json) : json :=
  match field entry "content" with
  | Some c => if present (Some c) then c else
      match field entry "text" with
      | Some t => if present (Some t) then t else JString ""
      | None => JString ""
      end
  | None =>
      match field entry "text" with
      | Some t => if present (Some t) then t else JString ""
      | None => JString ""
      end
  end.

(** The same, a [null] field counting as present. *)
Definition claimed_content (entry : json) : json :=
  match field entry "content" with
  | Some c => c
  | None =>
      match field entry "text" with
      | Some t => t
      | None => JString ""
      end
  end.

(** A value that [String] converts without throwing. *)
Definition coercible (v : json) : bool :=
  match ToString v with
  | Normal _ => true
  | Throw _ => false
  end.

(** An entry that rule 2 can turn into a message. *)
Definition usable (entry : json) : Prop :=
  entry <> JNull /\ coercible (spec_content entry) = true.

(** Rule 1 applies: [reply] is a string, and not the empty one. *)
Definition reply_rule (data : json) : option string :=
  match field data "reply" with
  | Some (JString s) => if String.eqb s "" then None else Some s
  | _ => None
  end.

(** Rule 2 applies: rule 1 does not, and [messages] is an array. *)
Definition messages_rule (data : json) : option (list json) :=
  match reply_rule data with
  | Some _ => None
  | None =>
      match field data "messages" with
      | Some (JArray entries) => Some entries
      | _ => None
      end
  end.

(** *** Failed requests *)

(** The server answered with a status outside 200..299 and a body [text]:
    the error text is built from both. *)
Inductive HttpFailure : Settled Response -> string -> Prop :=
| http_failure (r : Response) (text : string) :
    resp_ok r = false ->
    resp_text r = Fulfilled text ->
    HttpFailure (Fulfilled r)
      ("Backend error: " ++ N_to_string (resp_status r) ++ " " ++ text).

(** No usable response was obtained: [fetch] was rejected, or reading the
    body of the response was. *)
Inductive Fault : Settled Response -> Thrown -> Prop :=
| fault_transport (e : Thrown) :
    Fault (Rejected e) e
| fault_text (r : Response) (e : Thrown) :
    resp_ok r = false ->
    resp_text r = Rejected e ->
    Fault (Fulfilled r) e
| fault_decode (r : Response) (e : Thrown) :
    resp_ok r = true ->
    resp_json r = Rejected e ->
    Fault (Fulfilled r) e.

(** The errors that handling a decoded reply can raise. *)
Definition is_TypeError (e : Thrown) : Prop :=
  e = TypeError_to_primitive \/ exists key, e = TypeError_read_null key.

(** The state after [catch] and [finally], when [e] was thrown in state [w]. *)
Definition caught (e : Thrown) (w : World) : World :=
  {| input := input w;
     messages := (messages w
                  ++ [ {| id := message_id (env w) (drawn w);
                          role := "assistant"; content := apology |} ])%list;
     loading := false;
     error := Some (message_of e);
     network := network w; suspended := suspended w;
     drawn := S (drawn w); env := env w |}.

(** The state after [finally], when nothing was thrown. *)
Definition finished (w : World) : World :=
  {| input := input w; messages := messages w; loading := false;
     error := error w; network := network w; suspended := suspended w;
     drawn := drawn w; env := env w |}.

(** The message added last is the apology, from the assistant. *)
Definition apologises (w w' : World) : Prop :=
  exists m, messages w' = (messages w ++ [m])%list
            /\ role m = "assistant" /\ content m = apology.

(** *** Sample surroundings and inputs *)

(** A clock that stands still and a random generator that repeats itself. *)
Definition stuck : Env :=
  {| REACT_APP_API_URL := None;
     Date_now := fun _ => 1700000000000%N;
     Math_random_36 := fun _ => "0.4fzyo82mvyr" |}.

(** A clock that advances between the events but not within one of them,
    and a random generator that gives the same six digits twice in a row:
    draw 0 is the welcome message, draw 1 the question, draws 2 and 3 the
    two parts of the answer. *)
Definition repeating : Env :=
  {| REACT_APP_API_URL := None;
     Date_now := fun n =>
       match n with
       | 0 => 1700000000000%N
       | 1 => 1700000004200%N
       | _ => 1700000005100%N
       end;
     Math_random_36 := fun n =>
       match n with
       | 1 => "0.9x3k1q7w2mb"
       | _ => "0.4fzyo82mvyr"
       end |}.

(** A clock that advances by one millisecond at every draw. *)
Definition ticking : Env :=
  {| REACT_APP_API_URL := Some "https://agent.example";
     Date_now := fun n => (1700000000000 + N.of_nat n)%N;
     Math_random_36 := fun _ => "0.4fzyo82mvyr" |}.

Definition answered (data : json) : Settled Response :=
  Fulfilled {| resp_status := 200%N;
               resp_text := Fulfilled "";
               resp_json := Fulfilled data |}.

Definition refused (status : N) (text : string) : Settled Response :=
  Fulfilled {| resp_status := status;
               resp_text := Fulfilled text;
               resp_json := Rejected (ErrorObject "Unexpected token") |}.

(** Spaces, a tab, a line feed and a no-break space. *)
Definition blank : string := bytes [32; 9; 10; 194; 160; 32].

(** [{"reply": "Paris is the capital."}] *)
Definition paris : json :=
  JObject [("reply", JString "Paris is the capital.")].

(** [{"reply": ""}] *)
Definition empty_reply : json :=
  JObject [("reply", JString "")].

(** [{"messages": []}] *)
Definition no_messages : json :=
  JObject [("messages", JArray [])].

(** [{"messages": [null]}] *)
Definition null_entry : json :=
  JObject [("messages", JArray [JNull])].

(** [{"messages": [{"content": null, "text": "t"}]}] *)
Definition null_content : json :=
  JObject [("messages",
            JArray [JObject [("content", JNull); ("text", JString "t")]])].

(** [{"messages":[{"role":"user","content":"hi"},{"role":"system","text":"note"}]}] *)
Definition hi_note : json :=
  JObject [("messages",
            JArray [JObject [("role", JString "user"); ("content", JString "hi")];
                    JObject [("role", JString "system"); ("text", JString "note")]])].

(** [{"foo": 1}] *)
Definition unrecognised : json :=
  JObject [("foo", JNumber "1")].

(** One question asked and answered. *)
Definition asked : World :=
  run [Change "capital of France?"; KeyDown "Enter" false] (mounted stuck).

Definition one_exchange : list Event :=
  [Change "capital of France?"; KeyDown "Enter" false; Settle (answered paris)].

(** One question asked, answered in two parts. *)
Definition two_part_exchange : list Event :=
  [Change "hello"; KeyDown "Enter" false; Settle (answered hi_note)].

(** A second question typed and sent with the Enter key while the first is
    still waiting for its answer. *)
Definition impatient : list Event :=
  [Change "first"; KeyDown "Enter" false; Change "second"; KeyDown "Enter" false].

(** ** What the component renders *)

(** One message as it is drawn: the React key, the class of the row, the
    class of the box, the text in the box and the small print under it. *)
Record Bubble : Type := {
  bubble_key : string;
  row_class : string;
  box_class : string;
  bubble_text : string;
  bubble_label : string
}.

(** The parts of the page that depend on the state. *)
Record View : Type := {
  bubbles : list Bubble;
  textarea_value : string;
  button_disabled : bool;
  button_class : string;
  button_label : string;
  banner : option string
}.

(** The JSX returned by [ReactChatbot]: [messages.map(...)], the text
    area, the Send button and, when [error] is truthy, the line
    [Error: {error}]. *)
Definition render (w : World) : View :=
  {| bubbles :=
       map (fun m =>
              {| bubble_key := id m;
                 row_class :=
                   "max-w-[85%] "
                   ++ (if String.eqb (role m) "user"
                       then "ml-auto text-right" else "mr-auto text-left");
                 box_class :=
                   "inline-block px-4 py-2 rounded-2xl break-words "
                   ++ (if String.eqb (role m) "user"
                       then "bg-blue-500 text-white"
                       else "bg-gray-100 text-gray-900");
                 bubble_text := content m;
                 bubble_label := role m |})
           (messages w);
     textarea_value := input w;
     button_disabled := loading w;
     button_class :=
       "px-4 py-2 rounded-md font-semibold "
       ++ (if loading w then "opacity-50 cursor-not-allowed"
           else "bg-blue-600 text-white hover:bg-blue-700");
     button_label := if loading w then "Sending..." else "Send";
     banner :=
       match error w with
       | Some text => if String.eqb text "" then None else Some ("Error: " ++ text)
       | None => None
       end |}.

(** ** Vocabulary of the further properties *)

(** The request that [sendMessage] builds for a trimmed text. *)
Definition request_for (e : Env) (text : string) : Request :=
  {| url := API_URL e ++ "/research";
     method := "POST";
     headers := [("Content-Type", "application/json")];
     body := "{" ++ QuoteJSONString "query" ++ ":" ++ QuoteJSONString text ++ "}" |}.

(** A request that asks for the text of a user message of the
    conversation. *)
Definition carries_user_text (w : World) (r : Request) : Prop :=
  exists m, In m (messages w) /\ role m = "user" /\ content m <> ""
            /\ r = request_for (env w) (content m).

(** How [loading], the suspended calls and the requests sent hang
    together. *)
Record Orderly (w : World) : Prop := {
  orderly_loading : loading w = true -> 0 < suspended w;
  orderly_pending : suspended w <= length (network w);
  orderly_requests : Forall (carries_user_text w) (network w)
}.

(** A piece of code that leaves the text area alone. *)
Definition keeps_input (m : M unit) : Prop :=
  forall w, input (exec m w) = input w.

(** The welcome message of the surroundings [e]. *)
Definition welcome_message (e : Env) : Message :=
  {| id := "m-" ++ N_to_string (Date_now e 0);
     role := "assistant";
     content := "Write a topic for research." |}.

(** The bubble of the apology: on the left, grey, from the assistant. *)
Definition apology_bubble (key : string) : Bubble :=
  {| bubble_key := key;
     row_class := "max-w-[85%] mr-auto text-left";
     box_class := "inline-block px-4 py-2 rounded-2xl break-words bg-gray-100 text-gray-900";
     bubble_text := apology;
     bubble_label := "assistant" |}.

(** A response with status 200 and a decoded body. *)
Definition ok_response (data : json) : Response :=
  {| resp_status := 200%N; resp_text := Fulfilled ""; resp_json := Fulfilled data |}.

(** A response with an error status and a text body. *)
Definition error_response (status : N) (text : string) : Response :=
  {| resp_status := status; resp_text := Fulfilled text;
     resp_json := Rejected (ErrorObject "Unexpected token") |}.

(** The mounted component with a question typed in. *)
Definition typed : World :=
  step (Change "  capital of France? ") (mounted ticking).

(** [{"messages": [{"role":"user","content":"hi"}, null, {"text":"lost"}]}] *)
Definition broken_reply : json :=
  JObject [("messages",
            JArray [JObject [("role", JString "user"); ("content", JString "hi")];
                    JNull;
                    JObject [("text", JString "lost")]])].

(** ** Lemmas on the helpers *)

Lemma addMessage_run (r c : string) (w : World) :
  addMessage r c w
  = (Normal tt,
     {| input := input w;
        messages := (messages w
                     ++ [ {| id := message_id (env w) (drawn w);
                             role := r; content := c |} ])%list;
        loading := loading w; error := error w; network := network w;
        suspended := suspended w; drawn := S (drawn w); env := env w |}).
Proof. reflexivity. Qed.

Lemma Grows_refl (w : World) : Grows w w [].
Proof.
  split; simpl; auto.
  now rewrite List.app_nil_r.
Qed.

Lemma Grows_trans (w w' w'' : World) (l l' : list Message) :
  Grows w w' l -> Grows w' w'' l' -> Grows w w'' (l ++ l')%list.
Proof.
  intros [Hm Hi Hr Hd He Hn Hs] [Hm' Hi' Hr' Hd' He' Hn' Hs'].
  split.
  - now rewrite Hm', Hm, List.app_assoc.
  - rewrite map_app, List.length_app, seq_app, map_app.
    now rewrite Hi, Hi', He, Hd.
  - apply Forall_app; split; assumption.
  - rewrite Hd', Hd, List.length_app; lia.
  - congruence.
  - congruence.
  - congruence.
Qed.

Lemma Grows_addMessage (r c : string) (w : World) :
  valid_role r ->
  Grows w (exec (addMessage r c) w)
    [ {| id := message_id (env w) (drawn w); role := r; content := c |} ].
Proof.
  intros Hr. unfold exec. rewrite addMessage_run.
  split; simpl; auto.
  lia.
Qed.

Lemma get_not_null (v : json) (key : string) :
  v <> JNull -> get v key = Normal (field v key).
Proof.
  destruct v; intros H; try reflexivity.
  now contradiction H.
Qed.

Lemma role_of_entry (entry : json) :
  (if strict_eq_string (field entry "role") "user" then "user"
   else if strict_eq_string (field entry "role") "system" then "system"
   else "assistant") = spec_role entry.
Proof.
  unfold spec_role, strict_eq_string.
  destruct (field entry "role") as [[ | | | | | ]|]; reflexivity.
Qed.

Lemma spec_role_valid (entry : json) : valid_role (spec_role entry).
Proof.
  unfold spec_role, valid_role.
  destruct (field entry "role") as [[ | | |r| | ]|]; auto.
  destruct (String.eqb r "user"); auto.
  destruct (String.eqb r "system"); auto.
Qed.

Lemma content_of_entry (entry : json) :
  String_ (nullish (nullish (field entry "content") (field entry "text"))
                   (Some (JString "")))
  = ToString (spec_content entry).
Proof.
  unfold spec_content.
  destruct (field entry "content") as [[ | | | | | ]|];
    destruct (field entry "text") as [[ | | | | | ]|]; reflexivity.
Qed.

(** What the callback does with an entry that is not [null]. *)
Lemma show_entry_run (entry : json) (w : World) :
  entry <> JNull ->
  show_entry entry w
  = match ToString (spec_content entry) with
    | Normal s => addMessage (spec_role entry) s w
    | Throw e => (Throw e, w)
    end.
Proof.
  intros Hn. unfold show_entry, bind, lift.
  rewrite !(get_not_null _ _ Hn).
  rewrite content_of_entry, role_of_entry.
  destruct (ToString (spec_content entry)); reflexivity.
Qed.

Lemma show_entry_null (w : World) :
  show_entry JNull w = (Throw (TypeError_read_null "role"), w).
Proof. reflexivity. Qed.

Lemma Grows_show_entry (entry : json) (w : World) :
  exists l, Grows w (exec (show_entry entry) w) l.
Proof.
  destruct entry eqn:E;
    try (rewrite <- E; unfold exec; rewrite show_entry_run by (rewrite E; discriminate);
         destruct (ToString (spec_content _));
         [ eexists; apply Grows_addMessage, spec_role_valid
         | exists []; apply Grows_refl ]).
  exists []. apply Grows_refl.
Qed.

Lemma forEach_cons (x : json) (rest : list json) (f : json -> M unit) (w : World) :
  forEach (x :: rest) f w
  = match f x w with
    | (Normal _, w') => forEach rest f w'
    | (Throw e, w') => (Throw e, w')
    end.
Proof. reflexivity. Qed.

Lemma Grows_forEach (entries : list json) (w : World) :
  exists l, Grows w (exec (forEach entries show_entry) w) l.
Proof.
  revert w. induction entries as [|x rest IH]; intros w.
  - exists []. apply Grows_refl.
  - destruct (Grows_show_entry x w) as [l1 H1].
    unfold exec in *. rewrite forEach_cons.
    destruct (show_entry x w) as [[u|e] w1]; simpl in H1.
    + destruct (IH w1) as [l2 H2].
      exists (l1 ++ l2)%list. eapply Grows_trans; eassumption.
    + exists l1. exact H1.
Qed.

Lemma reply_rule_guard (data : json) :
  truthy (field data "reply") && is_string (field data "reply")
  = match reply_rule data with Some _ => true | None => false end.
Proof.
  unfold reply_rule, truthy, is_string.
  destruct (field data "reply") as [[ |b|r|s| | ]|]; try reflexivity.
  - now rewrite andb_false_r.
  - now rewrite andb_false_r.
  - rewrite andb_true_r. now destruct (String.eqb s "").
Qed.

Lemma reply_rule_text (data : json) (s : string) :
  reply_rule data = Some s -> as_string (field data "reply") = s.
Proof.
  unfold reply_rule, as_string.
  destruct (field data "reply") as [[ | | |t| | ]|]; try discriminate.
  destruct (String.eqb t ""); congruence.
Qed.

(** The case distinction on a reply that is not [null], rule by rule. *)
Lemma show_reply_run (data : json) (w : World) :
  data <> JNull ->
  show_reply data w
  = match reply_rule data with
    | Some s => addMessage "assistant" s w
    | None =>
        match messages_rule data with
        | Some entries => forEach entries show_entry w
        | None =>
            match data with
            | JString s => addMessage "assistant" s w
            | _ => addMessage "assistant" (JSON_stringify data) w
            end
        end
    end.
Proof.
  intros Hn. unfold show_reply, bind, lift.
  rewrite (get_not_null _ _ Hn), reply_rule_guard.
  unfold messages_rule.
  destruct (reply_rule data) as [s|] eqn:Hr.
  - now rewrite (reply_rule_text _ _ Hr).
  - rewrite (get_not_null _ _ Hn).
    destruct (field data "messages") as [[ | | | |entries| ]|];
      destruct data; reflexivity.
Qed.

Lemma show_reply_null (w : World) :
  show_reply JNull w = (Throw (TypeError_read_null "reply"), w).
Proof. reflexivity. Qed.

Lemma valid_assistant : valid_role "assistant".
Proof. right; left; reflexivity. Qed.

Lemma valid_user : valid_role "user".
Proof. left; reflexivity. Qed.

Lemma Grows_show_reply (data : json) (w : World) :
  exists l, Grows w (exec (show_reply data) w) l.
Proof.
  destruct data eqn:E;
    try (rewrite <- E;
         assert (Hn : data <> JNull) by (rewrite E; discriminate);
         unfold exec; rewrite (show_reply_run _ _ Hn);
         destruct (reply_rule data);
         [ eexists; apply Grows_addMessage, valid_assistant
         | destruct (messages_rule data);
           [ apply Grows_forEach
           | rewrite E; eexists; apply Grows_addMessage, valid_assistant ] ]).
  exists []. apply Grows_refl.
Qed.

(** Entries that rule 2 can handle give one message each, in order. *)
Lemma forEach_usable (entries : list json) (w : World) :
  Forall usable entries ->
  fst (forEach entries show_entry w) = Normal tt /\
  exists l,
    messages (exec (forEach entries show_entry) w) = (messages w ++ l)%list /\
    Forall2 (fun entry m =>
               role m = spec_role entry /\
               ToString (spec_content entry) = Normal (content m))
            entries l.
Proof.
  intros H. revert w. induction H as [|x rest [Hx Hc] _ IH]; intros w.
  - split; [reflexivity|]. exists []. split; [|constructor].
    unfold exec; simpl. now rewrite List.app_nil_r.
  - unfold exec. rewrite forEach_cons, (show_entry_run _ _ Hx).
    unfold coercible in Hc.
    destruct (ToString (spec_content x)) as [s|] eqn:Hs; [|discriminate].
    rewrite addMessage_run.
    match goal with |- context [forEach rest show_entry ?w1] =>
      destruct (IH w1) as [Hok [l [Hl Hf]]] end.
    split; [exact Hok|].
    eexists (_ :: l). split.
    + unfold exec in Hl. rewrite Hl. simpl.
      rewrite <- List.app_assoc. reflexivity.
    + constructor; [|exact Hf]. simpl. split; [reflexivity|exact Hs].
Qed.

(** ** The reply rules *)

Example plain_string_shown :
  map role_content (messages (exec (show_reply (JString "plain string")) (initial stuck)))
  = [("assistant", "plain string")].
Proof. reflexivity. Qed.

Example unrecognised_shown :
  map role_content (messages (exec (show_reply unrecognised) (initial stuck)))
  = [("assistant", "{" ++ QuoteJSONString "foo" ++ ":1}")].
Proof. reflexivity. Qed.

(** C1, as stated, fails: on [null] the case distinction throws (reading
    [data.reply]), and on [{"messages": []}] it adds no message at all. *)
Lemma show_reply_not_total :
  fst (show_reply JNull (mounted stuck)) = Throw (TypeError_read_null "reply")
  /\ fst (show_reply no_messages (mounted stuck)) = Normal tt
  /\ messages (exec (show_reply no_messages) (mounted stuck))
     = messages (mounted stuck).
Proof. repeat split. Qed.

(** C1 (amended): on every decoded reply other than [null] whose [messages]
    entries, when rule 2 applies, are not [null] and have a content that
    [String] can convert, the case distinction ends without throwing and
    adds messages at the end of the conversation: one per entry when rule 2
    applies (none for an empty array), exactly one otherwise. *)
Theorem show_reply_total (data : json) (w : World) :
  data <> JNull ->
  (forall entries, messages_rule data = Some entries -> Forall usable entries) ->
  fst (show_reply data w) = Normal tt /\
  exists l,
    messages (exec (show_reply data) w) = (messages w ++ l)%list /\
    (forall entries, messages_rule data = Some entries -> length l = length entries) /\
    (messages_rule data = None -> length l = 1).
Proof.
  intros Hn Hu. unfold exec. rewrite (show_reply_run _ _ Hn).
  destruct (reply_rule data) as [s|] eqn:Hr.
  - assert (Hm : messages_rule data = None) by (unfold messages_rule; now rewrite Hr).
    rewrite addMessage_run. split; [reflexivity|].
    eexists [_]. split; [reflexivity|]. split; [|reflexivity].
    intros entries He. congruence.
  - destruct (messages_rule data) as [entries|] eqn:Hm.
    + destruct (forEach_usable entries w (Hu entries eq_refl)) as [Hok [l [Hl Hf]]].
      split; [exact Hok|]. exists l. split; [exact Hl|]. split; [|discriminate].
      intros entries' He. injection He as <-.
      symmetry. eapply Forall2_length; eassumption.
    + destruct data; rewrite addMessage_run;
        (split; [reflexivity|]; eexists [_]; split; [reflexivity|];
         split; [discriminate|reflexivity]).
Qed.

Lemma show_reply_total_witness :
  hi_note <> JNull /\
  fst (show_reply hi_note (mounted stuck)) = Normal tt /\
  exists l,
    messages (exec (show_reply hi_note) (mounted stuck))
    = (messages (mounted stuck) ++ l)%list /\
    (forall entries, messages_rule hi_note = Some entries -> length l = length entries) /\
    (messages_rule hi_note = None -> length l = 1).
Proof.
  split; [discriminate|].
  apply (show_reply_total hi_note (mounted stuck)); [discriminate|].
  intros entries H. vm_compute in H. injection H as <-.
  repeat constructor; discriminate.
Defined.

(** C3, as stated, fails on the empty string: [{"reply": ""}] is shown by
    the last rule, as its JSON text, not as an empty message. *)
Lemma empty_reply_not_shown :
  ~ (exists m,
       messages (exec (show_reply empty_reply) (mounted stuck))
       = (messages (mounted stuck) ++ [m])%list
       /\ role m = "assistant" /\ content m = "").
Proof.
  intros [m [H [_ Hc]]]. vm_compute in H.
  injection H as H. subst m. discriminate Hc.
Qed.

(** C3 (amended): for every decoded reply whose field [reply] is a string
    other than the empty one, the case distinction adds exactly one
    message, from the assistant, whose content is that string. *)
Theorem reply_string_shown (data : json) (s : string) (w : World) :
  field data "reply" = Some (JString s) ->
  s <> "" ->
  fst (show_reply data w) = Normal tt /\
  exists m,
    messages (exec (show_reply data) w) = (messages w ++ [m])%list
    /\ role m = "assistant" /\ content m = s.
Proof.
  intros Hf Hs.
  assert (Hn : data <> JNull) by (intros ->; discriminate Hf).
  assert (Hr : reply_rule data = Some s).
  { unfold reply_rule. rewrite Hf.
    destruct (String.eqb_spec s ""); [contradiction|reflexivity]. }
  unfold exec. rewrite (show_reply_run _ _ Hn), Hr, addMessage_run.
  split; [reflexivity|]. eexists. repeat split.
Qed.

Lemma reply_string_shown_witness :
  field paris "reply" = Some (JString "Paris is the capital.") /\
  "Paris is the capital." <> "" /\
  fst (show_reply paris (mounted stuck)) = Normal tt /\
  exists m,
    messages (exec (show_reply paris) (mounted stuck))
    = (messages (mounted stuck) ++ [m])%list
    /\ role m = "assistant" /\ content m = "Paris is the capital.".
Proof.
  split; [reflexivity|]. split; [discriminate|].
  apply (reply_string_shown paris "Paris is the capital." (mounted stuck));
    [reflexivity|discriminate].
Defined.

(** C4, as stated, fails: a [null] entry gives no message but a
    [TypeError], which ends the loop; and a [content] that is present but
    [null] is passed over in favour of [text]. *)
Lemma entries_not_all_shown :
  (fst (show_reply null_entry (mounted stuck)) = Throw (TypeError_read_null "role")
   /\ messages (exec (show_reply null_entry) (mounted stuck))
      = messages (mounted stuck))
  /\ (exists entry m,
        field null_content "messages" = Some (JArray [entry])
        /\ messages (exec (show_reply null_content) (mounted stuck))
           = (messages (mounted stuck) ++ [m])%list
        /\ content m = "t"
        /\ ToString (claimed_content entry) = Normal "null").
Proof.
  split; [split; reflexivity|].
  do 2 eexists. repeat split.
Qed.

(** C4 (amended): for every decoded reply without a string field [reply]
    but with an array field [messages] whose entries are not [null] and
    have a content that [String] can convert, the case distinction adds one
    message per entry, in the order of the array; the role of each is
    [user] or [system] when the entry's [role] is that string and
    [assistant] otherwise, and its content is [String] of the entry's
    [content] if that is neither missing nor [null], else of its [text] if
    that is neither missing nor [null], else the empty string. *)
Theorem entries_shown (data : json) (entries : list json) (w : World) :
  is_string (field data "reply") = false ->
  field data "messages" = Some (JArray entries) ->
  Forall usable entries ->
  fst (show_reply data w) = Normal tt /\
  exists l,
    messages (exec (show_reply data) w) = (messages w ++ l)%list /\
    Forall2 (fun entry m =>
               role m = spec_role entry /\
               ToString (spec_content entry) = Normal (content m))
            entries l.
Proof.
  intros Hs Hm Hu.
  assert (Hn : data <> JNull) by (intros ->; discriminate Hm).
  assert (Hr : reply_rule data = None).
  { unfold reply_rule. unfold is_string in Hs.
    destruct (field data "reply") as [[ | | | | | ]|]; try reflexivity.
    discriminate Hs. }
  assert (Hmr : messages_rule data = Some entries).
  { unfold messages_rule. now rewrite Hr, Hm. }
  unfold exec. rewrite (show_reply_run _ _ Hn), Hr, Hmr.
  apply forEach_usable, Hu.
Qed.

Lemma entries_shown_witness :
  is_string (field hi_note "reply") = false /\
  fst (show_reply hi_note (mounted ticking)) = Normal tt /\
  exists l,
    messages (exec (show_reply hi_note) (mounted ticking))
    = (messages (mounted ticking) ++ l)%list /\
    Forall2 (fun entry m =>
               role m = spec_role entry /\
               ToString (spec_content entry) = Normal (content m))
            (as_array (field hi_note "messages")) l.
Proof.
  split; [reflexivity|].
  apply (entries_shown hi_note _ (mounted ticking)); [reflexivity|reflexivity|].
  repeat constructor; discriminate.
Defined.

(** C5, as stated, fails: the second entry carries the role [system], which
    the case distinction keeps; it does not fall back to [assistant]. *)
Lemma hi_note_not_assistant :
  map role_content
      (skipn (length (messages (mounted stuck)))
             (messages (exec (show_reply hi_note) (mounted stuck))))
  <> [("user", "hi"); ("assistant", "note")].
Proof. vm_compute. discriminate. Qed.

(** C5 (amended): on
    [{"messages":[{"role":"user","content":"hi"},{"role":"system","text":"note"}]}]
    the case distinction adds exactly a [user] message "hi" and a [system]
    message "note", in this order: the role [system] is kept, and the
    content of the second entry comes from its field [text]. *)
Theorem hi_note_shown (w : World) :
  fst (show_reply hi_note w) = Normal tt /\
  exists l,
    messages (exec (show_reply hi_note) w) = (messages w ++ l)%list /\
    map role_content l = [("user", "hi"); ("system", "note")].
Proof.
  assert (Hu : Forall usable (as_array (field hi_note "messages")))
    by (repeat constructor; discriminate).
  destruct (forEach_usable _ w Hu) as [Hok [l [Hl Hf]]].
  unfold exec. rewrite show_reply_run by discriminate.
  change (reply_rule hi_note) with (@None string).
  change (messages_rule hi_note) with (Some (as_array (field hi_note "messages"))).
  split; [exact Hok|]. exists l. split; [exact Hl|].
  inversion Hf as [|e1 m1 r1 l1 [Hr1 Hc1] Hf1]; subst.
  inversion Hf1 as [|e2 m2 r2 l2 [Hr2 Hc2] Hf2]; subst.
  inversion Hf2; subst.
  destruct m1 as [i1 ro1 c1], m2 as [i2 ro2 c2].
  vm_compute in Hr1, Hc1, Hr2, Hc2.
  injection Hc1 as <-. injection Hc2 as <-. subst.
  reflexivity.
Qed.

(** ** The request life cycle *)

Lemma resume_rejected (e : Thrown) (w : World) :
  sendMessage_resume (Rejected e) w = (Normal tt, caught e w).
Proof. reflexivity. Qed.

Lemma resume_http_failure (r : Response) (text : string) (w : World) :
  resp_ok r = false ->
  resp_text r = Fulfilled text ->
  sendMessage_resume (Fulfilled r) w
  = (Normal tt,
     caught (ErrorObject ("Backend error: " ++ N_to_string (resp_status r)
                          ++ " " ++ text)) w).
Proof.
  intros Hok Ht.
  unfold sendMessage_resume, try_catch_finally, bind, await, ret, throw.
  rewrite Hok, Ht. reflexivity.
Qed.

Lemma resume_text_rejected (r : Response) (e : Thrown) (w : World) :
  resp_ok r = false ->
  resp_text r = Rejected e ->
  sendMessage_resume (Fulfilled r) w = (Normal tt, caught e w).
Proof.
  intros Hok Ht.
  unfold sendMessage_resume, try_catch_finally, bind, await, ret, throw.
  rewrite Hok, Ht. reflexivity.
Qed.

Lemma resume_json_rejected (r : Response) (e : Thrown) (w : World) :
  resp_ok r = true ->
  resp_json r = Rejected e ->
  sendMessage_resume (Fulfilled r) w = (Normal tt, caught e w).
Proof.
  intros Hok Hj.
  unfold sendMessage_resume, try_catch_finally, bind, await, ret, throw.
  rewrite Hok, Hj. reflexivity.
Qed.

Lemma resume_decoded (r : Response) (data : json) (w : World) :
  resp_ok r = true ->
  resp_json r = Fulfilled data ->
  sendMessage_resume (Fulfilled r) w
  = match show_reply data w with
    | (Normal _, w1) => (Normal tt, finished w1)
    | (Throw e, w1) => (Normal tt, caught e w1)
    end.
Proof.
  intros Hok Hj.
  unfold sendMessage_resume, try_catch_finally, bind, await, ret, throw.
  rewrite Hok, Hj. simpl.
  destruct (show_reply data w) as [[[]|e] w1]; reflexivity.
Qed.

Lemma Grows_caught (e : Thrown) (w : World) :
  Grows w (caught e w)
    [ {| id := message_id (env w) (drawn w);
         role := "assistant"; content := apology |} ].
Proof.
  split; simpl; auto.
  - constructor; [apply valid_assistant|constructor].
  - lia.
Qed.

Lemma Grows_finished (w : World) : Grows w (finished w) [].
Proof.
  split; simpl; auto.
  now rewrite List.app_nil_r.
Qed.

(** However the request ends, [sendMessage] returns normally, with
    [loading] reset, having only added messages. *)
Lemma resume_cases (fetched : Settled Response) (w : World) :
  fst (sendMessage_resume fetched w) = Normal tt
  /\ loading (exec (sendMessage_resume fetched) w) = false
  /\ exists l, Grows w (exec (sendMessage_resume fetched) w) l.
Proof.
  unfold exec.
  destruct fetched as [r|e].
  - destruct (resp_ok r) eqn:Hok.
    + destruct (resp_json r) as [data|e] eqn:Hj.
      * rewrite (resume_decoded _ _ _ Hok Hj).
        destruct (Grows_show_reply data w) as [l Hl]. unfold exec in Hl.
        destruct (show_reply data w) as [[u|e] w1]; simpl in *.
        -- repeat split. exists (l ++ [])%list.
           eapply Grows_trans; [exact Hl|apply Grows_finished].
        -- repeat split. eexists (l ++ [_])%list.
           eapply Grows_trans; [exact Hl|apply Grows_caught].
      * rewrite (resume_json_rejected _ _ _ Hok Hj).
        repeat split. eexists. apply Grows_caught.
    + destruct (resp_text r) as [text|e] eqn:Ht.
      * rewrite (resume_http_failure _ _ _ Hok Ht).
        repeat split. eexists. apply Grows_caught.
      * rewrite (resume_text_rejected _ _ _ Hok Ht).
        repeat split. eexists. apply Grows_caught.
  - rewrite resume_rejected. repeat split. eexists. apply Grows_caught.
Qed.

Lemma apologises_caught (e : Thrown) (w : World) : apologises w (caught e w).
Proof. eexists. repeat split. Qed.

Lemma json_array_ind (P : json -> Prop) :
  P JNull ->
  (forall b, P (JBool b)) ->
  (forall r, P (JNumber r)) ->
  (forall s, P (JString s)) ->
  (forall items, Forall P items -> P (JArray items)) ->
  (forall fields, P (JObject fields)) ->
  forall v, P v.
Proof.
  intros Hnull Hbool Hnum Hstr Harr Hobj.
  fix IH 1. intros v.
  destruct v as [ |b|r|s|items|fields].
  - exact Hnull.
  - apply Hbool.
  - apply Hnum.
  - apply Hstr.
  - apply Harr.
    induction items as [|x rest IHrest]; constructor; [apply IH|exact IHrest].
  - apply Hobj.
Qed.

Lemma ToString_array (items : list json) :
  ToString (JArray items) = join items.
Proof.
  induction items as [|x rest IHrest]; [reflexivity|].
  simpl in *. unfold element_string. rewrite IHrest. reflexivity.
Qed.

Lemma ToString_throws (v : json) :
  forall e : Thrown, ToString v = Throw e -> e = TypeError_to_primitive.
Proof.
  induction v as [ |b|r|s|items IHitems|fields] using json_array_ind;
    intros e; try (intros H; discriminate H).
  - rewrite ToString_array.
    induction IHitems as [|x rest Hx _ IHrest]; [intros H; discriminate H|].
    simpl.
    destruct (element_string x) as [sx|ex] eqn:Ex.
    + destruct rest as [|y rest']; [intros H; discriminate H|].
      destruct (join (y :: rest')) as [sr|er].
      * intros H; discriminate H.
      * intros H. injection H as <-. apply IHrest. reflexivity.
    + intros H. injection H as <-.
      destruct x; try discriminate Ex; apply (Hx _ Ex).
  - simpl. destruct (assoc "toString" fields); [|intros H; discriminate H].
    intros H. injection H as <-. reflexivity.
Qed.

Lemma show_entry_throws (entry : json) (w w1 : World) (e : Thrown) :
  show_entry entry w = (Throw e, w1) -> is_TypeError e.
Proof.
  destruct entry eqn:E;
    try (rewrite <- E; rewrite show_entry_run by (rewrite E; discriminate);
         destruct (ToString (spec_content _)) as [txt|e'] eqn:Hs;
         [ rewrite addMessage_run; discriminate
         | intros H; injection H as <- _; left; eapply ToString_throws; exact Hs ]).
  rewrite show_entry_null. intros H. injection H as <- _.
  right. eexists. reflexivity.
Qed.

Lemma forEach_throws (entries : list json) (w w1 : World) (e : Thrown) :
  forEach entries show_entry w = (Throw e, w1) -> is_TypeError e.
Proof.
  revert w. induction entries as [|x rest IH]; intros w.
  - discriminate.
  - rewrite forEach_cons.
    destruct (show_entry x w) as [[u|e'] w'] eqn:Hx.
    + apply IH.
    + intros H. injection H as <- _. eapply show_entry_throws; exact Hx.
Qed.

Lemma show_reply_throws (data : json) (w w1 : World) (e : Thrown) :
  show_reply data w = (Throw e, w1) -> is_TypeError e.
Proof.
  destruct data eqn:E;
    try (rewrite <- E;
         assert (Hn : data <> JNull) by (rewrite E; discriminate);
         rewrite (show_reply_run _ _ Hn);
         destruct (reply_rule data);
         [ rewrite addMessage_run; discriminate
         | destruct (messages_rule data);
           [ apply forEach_throws
           | rewrite E; rewrite addMessage_run; discriminate ] ]).
  rewrite show_reply_null. intros H. injection H as <- _.
  right. eexists. reflexivity.
Qed.

Lemma TypeError_described (e : Thrown) : is_TypeError e -> message_of e <> "".
Proof.
  intros [->|[key ->]]; discriminate.
Qed.

Lemma begin_run (w : World) :
  trim (input w) <> "" ->
  sendMessage_begin w
  = (Normal tt,
     {| input := "";
        messages := (messages w
                     ++ [ {| id := message_id (env w) (drawn w);
                             role := "user"; content := trim (input w) |} ])%list;
        loading := true;
        error := None;
        network := (network w
                    ++ [ {| url := API_URL (env w) ++ "/research";
                            method := "POST";
                            headers := [("Content-Type", "application/json")];
                            body := JSON_stringify
                                      (JObject [("query", JString (trim (input w)))]) |} ])%list;
        suspended := S (suspended w);
        drawn := S (drawn w);
        env := env w |}).
Proof.
  intros Hne. unfold sendMessage_begin.
  destruct (String.eqb_spec (trim (input w)) ""); [contradiction|reflexivity].
Qed.

Lemma begin_blank (w : World) :
  trim (input w) = "" -> sendMessage_begin w = (Normal tt, w).
Proof.
  intros He. unfold sendMessage_begin. rewrite He. reflexivity.
Qed.

Lemma message_of_described (e : Thrown) :
  e <> ErrorObject "" -> message_of e <> "".
Proof.
  destruct e as [m|]; simpl; [|discriminate].
  intros H ->. now apply H.
Qed.

(** C6, as stated, fails in one corner: when [fetch] is rejected with an
    error whose message is the empty string (as [new Error()] has), the
    [catch] clause stores that empty text: [??] replaces only [null] and
    [undefined]. *)
Lemma blank_fault_blank_error :
  Fault (Rejected (ErrorObject "")) (ErrorObject "")
  /\ error (exec (sendMessage_resume (Rejected (ErrorObject ""))) asked) = Some "".
Proof. split; [constructor|reflexivity]. Qed.

(** C6 (amended): however the request ends, [sendMessage] returns without
    throwing and with [loading] reset to [false].  After a response with a
    status outside 200..299, [error] is the text made of "Backend error:",
    the status and the body, which is not empty; after a fault (the [fetch]
    or the reading of the body was rejected), [error] is the description of
    the fault, or "Unknown error" when it has none, and is not empty unless
    that description is; after a [TypeError] raised while the decoded reply
    was shown, [error] is its description, which is not empty.  In all
    these cases exactly one message is added after those already there:
    the apology, from the assistant. *)
Theorem sendMessage_settles (fetched : Settled Response) (w : World) :
  fst (sendMessage_resume fetched w) = Normal tt
  /\ loading (exec (sendMessage_resume fetched) w) = false
  /\ (forall text, HttpFailure fetched text ->
        error (exec (sendMessage_resume fetched) w) = Some text
        /\ text <> ""
        /\ apologises w (exec (sendMessage_resume fetched) w))
  /\ (forall e, Fault fetched e ->
        error (exec (sendMessage_resume fetched) w) = Some (message_of e)
        /\ (e <> ErrorObject "" -> message_of e <> "")
        /\ apologises w (exec (sendMessage_resume fetched) w))
  /\ (forall r data e w1,
        fetched = Fulfilled r -> resp_ok r = true ->
        resp_json r = Fulfilled data ->
        show_reply data w = (Throw e, w1) ->
        error (exec (sendMessage_resume fetched) w) = Some (message_of e)
        /\ message_of e <> ""
        /\ apologises w1 (exec (sendMessage_resume fetched) w)).
Proof.
  destruct (resume_cases fetched w) as [Hret [Hload _]].
  split; [exact Hret|]. split; [exact Hload|]. unfold exec.
  split; [|split].
  - intros text Hf. inversion Hf as [r t Hok Ht]; subst.
    rewrite (resume_http_failure _ _ _ Hok Ht).
    split; [reflexivity|]. split; [simpl; discriminate|apply apologises_caught].
  - intros e Hf.
    assert (Hrun : sendMessage_resume fetched w = (Normal tt, caught e w)).
    { inversion Hf as [e'|r e' Hok Ht|r e' Hok Hj]; subst.
      - apply resume_rejected.
      - apply (resume_text_rejected _ _ _ Hok Ht).
      - apply (resume_json_rejected _ _ _ Hok Hj). }
    rewrite Hrun.
    split; [reflexivity|].
    split; [apply message_of_described|apply apologises_caught].
  - intros r data e w1 -> Hok Hj Hthrow.
    rewrite (resume_decoded _ _ _ Hok Hj), Hthrow.
    split; [reflexivity|]. split; [|apply apologises_caught].
    eapply TypeError_described, show_reply_throws; exact Hthrow.
Qed.

Lemma sendMessage_settles_witness :
  HttpFailure (refused 500 "Internal Server Error")
              "Backend error: 500 Internal Server Error"
  /\ loading (exec (sendMessage_resume (refused 500 "Internal Server Error")) asked)
     = false
  /\ error (exec (sendMessage_resume (refused 500 "Internal Server Error")) asked)
     = Some "Backend error: 500 Internal Server Error"
  /\ apologises asked
       (exec (sendMessage_resume (refused 500 "Internal Server Error")) asked).
Proof.
  assert (Hf : HttpFailure (refused 500 "Internal Server Error")
                           "Backend error: 500 Internal Server Error")
    by (apply (http_failure {| resp_status := 500%N;
                               resp_text := Fulfilled "Internal Server Error";
                               resp_json := Rejected (ErrorObject "Unexpected token") |});
        reflexivity).
  destruct (sendMessage_settles (refused 500 "Internal Server Error") asked)
    as [_ [Hload [Hhttp _]]].
  destruct (Hhttp _ Hf) as [Herr [_ Hap]].
  repeat split; assumption.
Defined.

(** C7: when the trimmed input is not empty, [sendMessage] adds exactly one
    message, from the user, carrying the trimmed text, and then hands
    exactly one request to [fetch] (the message is in the conversation when
    the request leaves): a POST to the base URL followed by [/research],
    with the header [Content-Type: application/json] and the body
    [{"query": trimmed}] as JSON text; it then waits for that request.
    Resuming it never sends anything: there is no retry. *)
Theorem sendMessage_sends_once (w : World) :
  trim (input w) <> "" ->
  (exists m,
     messages (exec sendMessage_begin w) = (messages w ++ [m])%list
     /\ role m = "user" /\ content m = trim (input w))
  /\ network (exec sendMessage_begin w)
     = (network w
        ++ [ {| url := API_URL (env w) ++ "/research";
                method := "POST";
                headers := [("Content-Type", "application/json")];
                body := "{" ++ QuoteJSONString "query" ++ ":"
                        ++ QuoteJSONString (trim (input w)) ++ "}" |} ])%list
  /\ suspended (exec sendMessage_begin w) = S (suspended w)
  /\ (exists before r,
        messages before = messages (exec sendMessage_begin w)
        /\ network before = network w
        /\ exec sendMessage_begin w = exec (fetch r) before)
  /\ forall fetched w0,
       network (exec (sendMessage_resume fetched) w0) = network w0.
Proof.
  intros Hne. unfold exec at 1 2 3 4 5. rewrite (begin_run _ Hne). simpl.
  split; [eexists; repeat split|].
  split; [reflexivity|]. split; [reflexivity|].
  split.
  { exists {| input := "";
              messages := (messages w
                           ++ [ {| id := message_id (env w) (drawn w);
                                   role := "user";
                                   content := trim (input w) |} ])%list;
              loading := true; error := None; network := network w;
              suspended := suspended w; drawn := S (drawn w); env := env w |}.
    eexists. repeat split. }
  intros fetched w0.
  destruct (resume_cases fetched w0) as [_ [_ [l Hl]]].
  apply (grows_network _ _ _ Hl).
Qed.

Lemma sendMessage_sends_once_witness :
  trim (input (step (Change "  capital of France? ") (mounted ticking))) <> ""
  /\ (exists m,
        messages (exec sendMessage_begin
                    (step (Change "  capital of France? ") (mounted ticking)))
        = (messages (mounted ticking) ++ [m])%list
        /\ role m = "user" /\ content m = "capital of France?")
  /\ map url (network (exec sendMessage_begin
                         (step (Change "  capital of France? ") (mounted ticking))))
     = ["https://agent.example/research"].
Proof.
  split; [vm_compute; discriminate|].
  destruct (sendMessage_sends_once
              (step (Change "  capital of France? ") (mounted ticking)))
    as [Hm [Hn _]]; [vm_compute; discriminate|].
  split; [exact Hm|]. rewrite Hn. reflexivity.
Defined.

Example trim_both_ends :
  trim (bytes [32; 10] ++ "a  b" ++ bytes [9; 194; 160; 226; 128; 169]) = "a  b".
Proof. reflexivity. Qed.

Lemma drop_white_all (mirror : bool) (l : list ascii) :
  Forall (fun c => ws1 c = true) l -> drop_white mirror l = [].
Proof.
  induction 1 as [|c l Hc _ IH]; simpl; [reflexivity|].
  now rewrite Hc.
Qed.

(** A text made of spaces, tabs and line breaks only trims to nothing. *)
Lemma trim_white (s : string) :
  Forall (fun c => ws1 c = true) (list_ascii_of_string s) -> trim s = "".
Proof.
  intros H. unfold trim. now rewrite (drop_white_all false _ H).
Qed.

(** C8: when the input is empty or holds white space only, so that its
    trimmed text is empty, [sendMessage] changes nothing: the conversation,
    [loading], [error] and the requests sent stay as they were, whether it
    is called from the Enter key or from the Send button. *)
Theorem blank_input_ignored (w : World) :
  trim (input w) = "" ->
  sendMessage_begin w = (Normal tt, w)
  /\ step (KeyDown "Enter" false) w = w
  /\ step ClickSend w = w.
Proof.
  intros He. pose proof (begin_blank _ He) as Hb.
  split; [exact Hb|]. unfold step, exec. rewrite Hb. simpl.
  split; [reflexivity|]. now destruct (loading w).
Qed.

Lemma blank_input_ignored_witness :
  trim (input (step (Change blank) asked)) = ""
  /\ sendMessage_begin (step (Change blank) asked)
     = (Normal tt, step (Change blank) asked)
  /\ step (KeyDown "Enter" false) (step (Change blank) asked)
     = step (Change blank) asked
  /\ step ClickSend (step (Change blank) asked) = step (Change blank) asked.
Proof.
  split; [reflexivity|].
  apply (blank_input_ignored (step (Change blank) asked)). reflexivity.
Defined.

(** ** Identifiers *)

Lemma digits_string_of_uint (d : Decimal.uint) :
  digits_only (NilEmpty.string_of_uint d) = true.
Proof. induction d; simpl; auto. Qed.

Lemma digits_N_to_string (n : N) : digits_only (N_to_string n) = true.
Proof. apply digits_string_of_uint. Qed.

Lemma N_to_string_inj (n n' : N) : N_to_string n = N_to_string n' -> n = n'.
Proof.
  unfold N_to_string. intros H.
  apply DecimalN.Unsigned.to_uint_inj.
  assert (Hs : Some (N.to_uint n) = Some (N.to_uint n'))
    by (rewrite <- !NilEmpty.usu; now rewrite H).
  now injection Hs.
Qed.

(** Two texts made of digits, a dash and a rest are equal only part by
    part. *)
Lemma dash_splits (a b x y : string) :
  digits_only a = true -> digits_only b = true ->
  a ++ "-" ++ x = b ++ "-" ++ y -> a = b /\ x = y.
Proof.
  revert b. induction a as [|c a IH]; intros [|c' b] Ha Hb H; simpl in *.
  - injection H as ->. now split.
  - injection H as <- _. discriminate Hb.
  - injection H as -> _. discriminate Ha.
  - injection H as -> H.
    apply andb_prop in Ha as [_ Ha]. apply andb_prop in Hb as [_ Hb].
    destruct (IH b Ha Hb H) as [-> ->]. now split.
Qed.

(** Digits alone never read as digits, a dash and a rest. *)
Lemma dash_absent (a b y : string) :
  digits_only a = true -> digits_only b = true -> a <> b ++ "-" ++ y.
Proof.
  revert b. induction a as [|c a IH]; intros [|c' b] Ha Hb H; simpl in *.
  - discriminate H.
  - discriminate H.
  - injection H as -> _. discriminate Ha.
  - injection H as -> H.
    apply andb_prop in Ha as [_ Ha]. apply andb_prop in Hb as [_ Hb].
    exact (IH b Ha Hb H).
Qed.

Lemma message_id_stamp (e : Env) (i j : nat) :
  message_id e i = message_id e j -> stamp e i = stamp e j.
Proof.
  unfold message_id, stamp. simpl. intros H. injection H as H.
  apply dash_splits in H as [Hn Hr]; try apply digits_N_to_string.
  apply N_to_string_inj in Hn. now rewrite Hn, Hr.
Qed.

Lemma welcome_id_apart (e : Env) (i j : nat) :
  welcome_id e i <> message_id e j.
Proof.
  unfold welcome_id, message_id. simpl. intros H. injection H as H.
  revert H. apply dash_absent; apply digits_N_to_string.
Qed.

(** ** What every reachable state satisfies *)

Lemma Grows_Extends (w w' : World) (l : list Message) :
  Grows w w' l -> Extends w w' l.
Proof. intros [Hm Hi Hr Hd He _ _]. now split. Qed.

Lemma Extends_refl (w : World) : Extends w w [].
Proof. apply Grows_Extends, Grows_refl. Qed.

Lemma Extends_begin (w : World) :
  exists l, Extends w (exec sendMessage_begin w) l.
Proof.
  unfold exec.
  destruct (String.eqb_spec (trim (input w)) "") as [He|Hne].
  - rewrite (begin_blank _ He). exists []. apply Extends_refl.
  - rewrite (begin_run _ Hne). eexists [_].
    split; simpl; try reflexivity.
    + constructor; [apply valid_user|constructor].
    + lia.
Qed.

(** Every event only adds messages at the end, with fresh draws. *)
Lemma Extends_step (ev : Event) (w : World) :
  exists l, Extends w (step ev w) l.
Proof.
  destruct ev as [value|key shiftKey| |fetched]; simpl.
  - exists []. unfold exec. simpl. split; simpl; auto.
    now rewrite List.app_nil_r.
  - destruct (String.eqb key "Enter" && negb shiftKey).
    + apply Extends_begin.
    + exists []. apply Extends_refl.
  - destruct (loading w).
    + exists []. apply Extends_refl.
    + apply Extends_begin.
  - destruct (suspended w) as [|n] eqn:Hs.
    + exists []. apply Extends_refl.
    + destruct (resume_cases fetched (wake w)) as [_ [_ [l Hl]]].
      exists l. apply Grows_Extends in Hl.
      destruct Hl as [Hm Hi Hr Hd He]. now split.
Qed.

Lemma Sound_mounted (e : Env) : Sound (mounted e).
Proof.
  split; simpl; auto.
  constructor; [apply valid_assistant|constructor].
Qed.

Lemma Sound_Extends (w w' : World) (l : list Message) :
  Sound w -> Extends w w' l -> Sound w'.
Proof.
  intros [Hd Hi Hr] [Hm' Hi' Hr' Hd' He'].
  split.
  - lia.
  - rewrite Hm', map_app, Hi, Hi', He', Hd'. simpl. f_equal.
    rewrite <- map_app. f_equal.
    replace (drawn w + length l - 1) with ((drawn w - 1) + length l) by lia.
    rewrite seq_app. do 2 f_equal. lia.
  - rewrite Hm'. apply Forall_app. now split.
Qed.

Lemma Sound_run (evs : list Event) (w : World) :
  Sound w -> Sound (run evs w).
Proof.
  revert w. induction evs as [|ev evs IH]; intros w Hw; simpl.
  - exact Hw.
  - apply IH. destruct (Extends_step ev w) as [l Hl].
    eapply Sound_Extends; eassumption.
Qed.

Lemma env_run (evs : list Event) (w : World) : env (run evs w) = env w.
Proof.
  revert w. induction evs as [|ev evs IH]; intros w; simpl; [reflexivity|].
  rewrite IH. destruct (Extends_step ev w) as [l Hl].
  apply (extends_env _ _ _ Hl).
Qed.

Lemma Sound_NoDup (w : World) :
  Sound w -> distinct_draws (env w) (drawn w) -> NoDup (map id (messages w)).
Proof.
  intros [Hd Hi _] Hdist. rewrite Hi. constructor.
  - intros Hin. apply in_map_iff in Hin as [j [Hj _]].
    symmetry in Hj. revert Hj. apply welcome_id_apart.
  - apply NoDup_map_NoDup_ForallPairs; [|apply seq_NoDup].
    intros i j Hi' Hj' Heq.
    apply in_seq in Hi'. apply in_seq in Hj'.
    apply message_id_stamp in Heq.
    destruct (Nat.lt_trichotomy i j) as [Hlt|[Heq'|Hgt]]; [|exact Heq'|].
    + exfalso. apply (Hdist i j); [lia|lia|lia|exact Heq].
    + exfalso. apply (Hdist j i); [lia|lia|lia|now symmetry].
Qed.

(** C9, as stated, fails: the two messages of one answer are added in the
    same millisecond, and when the random generator gives them the same six
    digits they get the same identifier. *)
Lemma identifiers_may_collide :
  exists m1 m2,
    In m1 (messages (run two_part_exchange (mounted repeating)))
    /\ In m2 (messages (run two_part_exchange (mounted repeating)))
    /\ m1 <> m2
    /\ id m1 = id m2.
Proof.
  exists {| id := "m-1700000005100-4fzyo8"; role := "user"; content := "hi" |},
         {| id := "m-1700000005100-4fzyo8"; role := "system"; content := "note" |}.
  vm_compute.
  split; [right; right; left; reflexivity|].
  split; [right; right; right; left; reflexivity|].
  split; [discriminate|reflexivity].
Qed.

(** C9 (amended): in every state the mounted component reaches, the
    messages of the conversation have pairwise different identifiers
    provided the draws of [Date.now()] and [Math.random()] made so far by
    [addMessage] differ pairwise in their time stamp or in the six digits
    taken from the random number; and every event leaves the messages
    already there in place and in order, adding new ones only at the end. *)
Theorem conversation_ordered (e : Env) (evs : list Event) :
  (distinct_draws e (drawn (run evs (mounted e))) ->
   NoDup (map id (messages (run evs (mounted e)))))
  /\ (forall ev, exists l,
        messages (step ev (run evs (mounted e)))
        = (messages (run evs (mounted e)) ++ l)%list).
Proof.
  split.
  - intros Hd. apply Sound_NoDup.
    + apply Sound_run, Sound_mounted.
    + now rewrite env_run.
  - intros ev. destruct (Extends_step ev (run evs (mounted e))) as [l Hl].
    exists l. apply (extends_messages _ _ _ Hl).
Qed.

Lemma conversation_ordered_witness :
  distinct_draws ticking (drawn (run one_exchange (mounted ticking)))
  /\ NoDup (map id (messages (run one_exchange (mounted ticking)))).
Proof.
  assert (Hd : distinct_draws ticking (drawn (run one_exchange (mounted ticking)))).
  { intros i j _ Hij _ H. apply (f_equal fst) in H.
    unfold stamp in H. cbn [ticking Date_now fst] in H. lia. }
  split; [exact Hd|].
  apply (proj1 (conversation_ordered ticking one_exchange) Hd).
Defined.

(** C10: in every state the mounted component reaches, every message of
    the conversation has the role [user], [assistant] or [system], whatever
    roles the replies of the server carried. *)
Theorem roles_valid (e : Env) (evs : list Event) :
  Forall (fun m => role m = "user" \/ role m = "assistant" \/ role m = "system")
         (messages (run evs (mounted e))).
Proof.
  apply (sound_roles _ (Sound_run evs _ (Sound_mounted e))).
Qed.

(** The Send button does nothing while a request is pending. *)
Lemma ClickSend_while_loading (w : World) :
  loading w = true -> step ClickSend w = w.
Proof. intros H. simpl. now rewrite H. Qed.

(** C2 fails on the component: after a first question is sent and while
    [loading] is still [true], a second text typed and sent with the Enter
    key is accepted, a user message is added and a second request leaves, so
    that two calls of [sendMessage] wait at once; the Send button, disabled
    while [loading], ignores the same text. *)
Theorem enter_key_sends_while_loading :
  loading (run [Change "first"; KeyDown "Enter" false] (mounted stuck)) = true
  /\ suspended (run [Change "first"; KeyDown "Enter" false] (mounted stuck)) = 1
  /\ map role_content (messages (run impatient (mounted stuck)))
     = [("assistant", "Write a topic for research.");
        ("user", "first"); ("user", "second")]
  /\ map url (network (run impatient (mounted stuck)))
     = ["http://localhost:8000/research"; "http://localhost:8000/research"]
  /\ suspended (run impatient (mounted stuck)) = 2
  /\ step ClickSend
       (run [Change "first"; KeyDown "Enter" false; Change "second"] (mounted stuck))
     = run [Change "first"; KeyDown "Enter" false; Change "second"] (mounted stuck).
Proof. vm_compute. repeat split. Qed.

(** ** Further properties of the handlers *)

Lemma begin_changes (w : World) :
  trim (input w) <> "" -> exec sendMessage_begin w <> w.
Proof.
  intros Hne Heq. unfold exec in Heq. rewrite (begin_run _ Hne) in Heq.
  apply (f_equal drawn) in Heq. simpl in Heq. lia.
Qed.

(** X1: a key pressed in the text area changes the state exactly when it is
    Enter, Shift is not held, and the trimmed input is not empty; every
    other key press, Shift+Enter included, leaves the whole state as it is. *)
Theorem enter_sends_iff (key : string) (shiftKey : bool) (w : World) :
  step (KeyDown key shiftKey) w <> w
  <-> key = "Enter" /\ shiftKey = false /\ trim (input w) <> "".
Proof.
  split.
  - intros Hch. cbn [step] in Hch.
    destruct (String.eqb_spec key "Enter") as [Hk|Hk];
      [|now contradiction Hch].
    destruct shiftKey; [now contradiction Hch|].
    split; [exact Hk|]. split; [reflexivity|].
    intros Hb. apply Hch. cbn [andb negb]. unfold exec.
    now rewrite (begin_blank _ Hb).
  - intros [-> [-> Hne]]. cbn [step].
    change (String.eqb "Enter" "Enter" && negb false) with true. cbn iota.
    now apply begin_changes.
Qed.

Lemma begin_settled_input (w : World) :
  trim (input (exec sendMessage_begin w)) = "".
Proof.
  unfold exec.
  destruct (String.eqb_spec (trim (input w)) "") as [He|Hne].
  - now rewrite (begin_blank _ He).
  - now rewrite (begin_run _ Hne).
Qed.

(** X2: submitting twice in a row without typing in between sends once:
    [sendMessage] empties the text area, so the second call finds nothing
    to send.  This holds for Enter followed by Enter or by a click, and for
    two clicks. *)
Theorem resubmit_ignored (w : World) :
  step (KeyDown "Enter" false) (step (KeyDown "Enter" false) w)
  = step (KeyDown "Enter" false) w
  /\ step ClickSend (step (KeyDown "Enter" false) w)
     = step (KeyDown "Enter" false) w
  /\ step ClickSend (step ClickSend w) = step ClickSend w.
Proof.
  assert (Hidem : exec sendMessage_begin (exec sendMessage_begin w)
                  = exec sendMessage_begin w).
  { unfold exec at 1. now rewrite (begin_blank _ (begin_settled_input w)). }
  cbn [step]. change (String.eqb "Enter" "Enter" && negb false) with true.
  cbn iota. split; [exact Hidem|]. split.
  - rewrite Hidem. now destruct (loading (exec sendMessage_begin w)).
  - destruct (loading w) eqn:Hl.
    + now rewrite Hl.
    + rewrite Hidem. now destruct (loading (exec sendMessage_begin w)).
Qed.

Lemma keeps_addMessage (r c : string) : keeps_input (addMessage r c).
Proof. intros w. unfold exec. now rewrite addMessage_run. Qed.

Lemma keeps_show_entry (entry : json) : keeps_input (show_entry entry).
Proof.
  intros w. destruct entry eqn:E;
    try (rewrite <- E; unfold exec;
         rewrite show_entry_run by (rewrite E; discriminate);
         destruct (ToString (spec_content _));
         [ apply keeps_addMessage | reflexivity ]).
  reflexivity.
Qed.

Lemma keeps_forEach (entries : list json) :
  keeps_input (forEach entries show_entry).
Proof.
  induction entries as [|x rest IH]; intros w; [reflexivity|].
  pose proof (keeps_show_entry x w) as Hx.
  unfold exec in Hx. unfold exec. rewrite forEach_cons.
  destruct (show_entry x w) as [[u|e] w1]; simpl in Hx.
  - transitivity (input w1); [apply IH|exact Hx].
  - exact Hx.
Qed.

Lemma keeps_show_reply (data : json) : keeps_input (show_reply data).
Proof.
  intros w. destruct data eqn:E;
    try (rewrite <- E;
         assert (Hn : data <> JNull) by (rewrite E; discriminate);
         unfold exec; rewrite (show_reply_run _ _ Hn);
         destruct (reply_rule data);
         [ apply keeps_addMessage
         | destruct (messages_rule data);
           [ apply keeps_forEach
           | rewrite E; apply keeps_addMessage ] ]).
  reflexivity.
Qed.

Lemma keeps_resume (fetched : Settled Response) :
  keeps_input (sendMessage_resume fetched).
Proof.
  intros w. unfold exec.
  destruct fetched as [r|e]; [|now rewrite resume_rejected].
  destruct (resp_ok r) eqn:Hok.
  - destruct (resp_json r) as [data|e] eqn:Hj.
    + rewrite (resume_decoded _ _ _ Hok Hj).
      pose proof (keeps_show_reply data w) as Hk. unfold exec in Hk.
      now destruct (show_reply data w) as [[u|e] w1].
    + now rewrite (resume_json_rejected _ _ _ Hok Hj).
  - destruct (resp_text r) as [text|e] eqn:Ht.
    + now rewrite (resume_http_failure _ _ _ Hok Ht).
    + now rewrite (resume_text_rejected _ _ _ Hok Ht).
Qed.

(** X3: what the user has typed while a request was pending is still in
    the text area after the request has settled, whatever came back. *)
Theorem typing_survives_settle (fetched : Settled Response) (w : World) :
  input (step (Settle fetched) w) = input w
  /\ textarea_value (render (step (Settle fetched) w))
     = textarea_value (render w).
Proof.
  assert (H : input (step (Settle fetched) w) = input w).
  { cbn [step]. destruct (suspended w); [reflexivity|].
    now rewrite (keeps_resume fetched (wake w)). }
  split; [exact H|exact H].
Qed.

(** ** Further properties of the reachable states *)

Lemma Extends_run (evs : list Event) (w : World) :
  exists l, messages (run evs w) = (messages w ++ l)%list.
Proof.
  revert w. induction evs as [|ev evs IH]; intros w; simpl.
  - exists []. now rewrite List.app_nil_r.
  - destruct (Extends_step ev w) as [l1 H1].
    destruct (IH (step ev w)) as [l2 H2].
    exists (l1 ++ l2)%list.
    now rewrite H2, (extends_messages _ _ _ H1), List.app_assoc.
Qed.

(** X4: over any sequence of events, from any state, the conversation only
    grows at its end: the messages that were there stay, in place and
    unchanged, and the bubbles drawn for them stay the first bubbles. *)
Theorem run_appends (evs : list Event) (w : World) :
  exists l,
    messages (run evs w) = (messages w ++ l)%list
    /\ length (messages w) <= length (messages (run evs w))
    /\ exists bs,
         bubbles (render (run evs w)) = (bubbles (render w) ++ bs)%list.
Proof.
  destruct (Extends_run evs w) as [l Hl]. exists l.
  split; [exact Hl|]. split.
  - rewrite Hl, List.length_app. lia.
  - cbn [render bubbles]. rewrite Hl, map_app. eexists. reflexivity.
Qed.

(** X5: in every state the mounted component reaches, the conversation
    starts with the welcome message, and no later message has the
    identifier of the welcome message (which React uses as its key),
    whatever the clock and the random generator return. *)
Theorem welcome_stays_first (e : Env) (evs : list Event) :
  exists rest,
    messages (run evs (mounted e)) = welcome_message e :: rest
    /\ forall m, In m rest -> id m <> id (welcome_message e).
Proof.
  destruct (Extends_run evs (mounted e)) as [rest Hrest].
  exists rest. split; [exact Hrest|].
  intros m Hin Heq.
  pose proof (sound_ids _ (Sound_run evs _ (Sound_mounted e))) as Hids.
  rewrite env_run, Hrest in Hids. cbn [mounted exec] in Hids.
  simpl in Hids. injection Hids as Hids.
  apply (in_map id) in Hin. rewrite Hids in Hin.
  apply in_map_iff in Hin as [j [Hj _]].
  apply (welcome_id_apart e 0 j). rewrite Hj, Heq. reflexivity.
Qed.

Lemma carries_mono (w w' : World) (l : list Message) (r : Request) :
  Extends w w' l -> carries_user_text w r -> carries_user_text w' r.
Proof.
  intros Hx [m [Hin [Hr [Hc ->]]]].
  exists m. rewrite (extends_messages _ _ _ Hx), (extends_env _ _ _ Hx).
  repeat split; auto. apply in_or_app. now left.
Qed.

(** An event either sends nothing, lets no new call wait and does not turn
    [loading] on, or is an accepted submission. *)
Lemma step_traffic (ev : Event) (w : World) :
  (network (step ev w) = network w
   /\ suspended (step ev w) <= suspended w
   /\ (loading (step ev w) = true
       -> loading w = true /\ suspended (step ev w) = suspended w))
  \/ (trim (input w) <> "" /\ step ev w = exec sendMessage_begin w).
Proof.
  assert (Hbegin :
    (network (exec sendMessage_begin w) = network w
     /\ suspended (exec sendMessage_begin w) <= suspended w
     /\ (loading (exec sendMessage_begin w) = true
         -> loading w = true /\ suspended (exec sendMessage_begin w) = suspended w))
    \/ (trim (input w) <> "" /\ exec sendMessage_begin w = exec sendMessage_begin w)).
  { destruct (String.eqb_spec (trim (input w)) "") as [He|Hne].
    - left. unfold exec. rewrite (begin_blank _ He). simpl. auto.
    - right. now split. }
  destruct ev as [value|key shiftKey| |fetched]; cbn [step].
  - left. unfold exec. simpl. auto.
  - destruct (String.eqb key "Enter" && negb shiftKey); [exact Hbegin|].
    left. auto.
  - destruct (loading w) eqn:Hl; [left; auto|exact Hbegin].
  - left. destruct (suspended w) as [|n] eqn:Hs; [rewrite Hs; auto|].
    destruct (resume_cases fetched (wake w)) as [_ [Hload [l Hl]]].
    rewrite (grows_network _ _ _ Hl), (grows_suspended _ _ _ Hl).
    cbn [wake network suspended]. rewrite Hs. cbn [pred].
    split; [reflexivity|]. split; [lia|].
    rewrite Hload. discriminate.
Qed.

Lemma Orderly_mounted (e : Env) : Orderly (mounted e).
Proof.
  split; simpl.
  - discriminate.
  - lia.
  - constructor.
Qed.

Lemma Orderly_step (ev : Event) (w : World) :
  Orderly w -> Orderly (step ev w).
Proof.
  intros [Hload Hpend Hreq].
  destruct (Extends_step ev w) as [l Hx].
  assert (Hold : Forall (carries_user_text (step ev w)) (network w)).
  { eapply Forall_impl; [|exact Hreq].
    intros r. now apply carries_mono with (l := l). }
  destruct (step_traffic ev w) as [[Hn [Hs Hl]]|[Hne Hb]].
  - split.
    + intros Ht. destruct (Hl Ht) as [Hw Heq]. rewrite Heq. now apply Hload.
    + rewrite Hn. lia.
    + now rewrite Hn.
  - revert Hold. rewrite Hb. unfold exec. rewrite (begin_run _ Hne).
    cbn [snd]. intros Hold. split; cbn [loading suspended network].
    + intros _. lia.
    + rewrite List.length_app. simpl. lia.
    + apply Forall_app. split; [exact Hold|].
      constructor; [|constructor].
      eexists. cbn [messages env]. split; [apply in_or_app; right; left; reflexivity|].
      repeat split. exact Hne.
Qed.

Lemma Orderly_run (evs : list Event) (w : World) :
  Orderly w -> Orderly (run evs w).
Proof.
  revert w. induction evs as [|ev evs IH]; intros w Hw; simpl.
  - exact Hw.
  - apply IH, Orderly_step, Hw.
Qed.

(** X6: in every state the mounted component reaches, a Send button drawn
    disabled (it then reads "Sending...") means that at least one request
    is still waiting for its answer, so the button will be enabled again;
    and the calls waiting are never more than the requests sent. *)
Theorem disabled_button_has_pending (e : Env) (evs : list Event) :
  (button_disabled (render (run evs (mounted e))) = true
   -> 0 < suspended (run evs (mounted e)))
  /\ (button_label (render (run evs (mounted e))) = "Sending..."
      <-> button_disabled (render (run evs (mounted e))) = true)
  /\ suspended (run evs (mounted e)) <= length (network (run evs (mounted e))).
Proof.
  destruct (Orderly_run evs _ (Orderly_mounted e)) as [Hload Hpend _].
  split; [exact Hload|]. split; [|exact Hpend].
  cbn [render button_label button_disabled].
  destruct (loading (run evs (mounted e))); split; intros H;
    try reflexivity; discriminate H.
Qed.

Lemma API_URL_not_empty (e : Env) : API_URL e <> "".
Proof.
  unfold API_URL. destruct (REACT_APP_API_URL e) as [u|]; [|discriminate].
  destruct (String.eqb_spec u ""); [discriminate|assumption].
Qed.

(** X7: in every state the mounted component reaches, every request it has
    sent is a POST to the base URL (the configured one, or
    [http://localhost:8000] when none or an empty one is configured)
    followed by [/research], declares JSON content, and carries as [query]
    the non-empty text of a user message that is in the conversation:
    nothing else is ever sent, and nothing is sent that is not shown. *)
Theorem requests_carry_user_text (e : Env) (evs : list Event) :
  API_URL e <> ""
  /\ (REACT_APP_API_URL e = None \/ REACT_APP_API_URL e = Some ""
      -> API_URL e = "http://localhost:8000")
  /\ (forall u, REACT_APP_API_URL e = Some u -> u <> "" -> API_URL e = u)
  /\ Forall (fun r =>
               url r = API_URL e ++ "/research"
               /\ method r = "POST"
               /\ headers r = [("Content-Type", "application/json")]
               /\ exists m,
                    In m (messages (run evs (mounted e)))
                    /\ role m = "user" /\ content m <> ""
                    /\ body r = "{" ++ QuoteJSONString "query" ++ ":"
                                ++ QuoteJSONString (content m) ++ "}")
            (network (run evs (mounted e))).
Proof.
  split; [apply API_URL_not_empty|].
  split; [intros [H|H]; unfold API_URL; now rewrite H|].
  split.
  { intros u Hu Hne. unfold API_URL. rewrite Hu.
    destruct (String.eqb_spec u ""); [contradiction|reflexivity]. }
  destruct (Orderly_run evs _ (Orderly_mounted e)) as [_ _ Hreq].
  eapply Forall_impl; [|exact Hreq].
  intros r [m [Hin [Hr [Hc ->]]]]. rewrite env_run. cbn [mounted exec].
  repeat split. exists m. repeat split; assumption.
Qed.

Lemma disabled_button_has_pending_witness :
  button_disabled (render (run impatient (mounted stuck))) = true
  /\ 0 < suspended (run impatient (mounted stuck)).
Proof.
  split; [reflexivity|].
  apply (proj1 (disabled_button_has_pending stuck impatient)). reflexivity.
Defined.

(** ** Whole exchanges *)

Lemma reply_rule_of_field (data : json) (s : string) :
  field data "reply" = Some (JString s) -> s <> "" ->
  data <> JNull /\ reply_rule data = Some s.
Proof.
  intros Hf Hs. split.
  - intros ->. discriminate Hf.
  - unfold reply_rule. rewrite Hf.
    destruct (String.eqb_spec s ""); [contradiction|reflexivity].
Qed.

Lemma step_enter (w : World) :
  step (KeyDown "Enter" false) w = exec sendMessage_begin w.
Proof. reflexivity. Qed.

(** X8: a question sent with Enter and answered with status 2xx by a body
    whose [reply] is a non-empty string adds exactly two messages, the
    trimmed question from the user and the reply from the assistant, in
    this order; afterwards the text area is empty, [loading] is off, no
    error is kept (an error left by an earlier failure is gone, and no
    banner is drawn), and no more calls are waiting than before. *)
Theorem round_trip_reply (w : World) (r : Response) (data : json) (s : string) :
  trim (input w) <> "" ->
  resp_ok r = true ->
  resp_json r = Fulfilled data ->
  field data "reply" = Some (JString s) ->
  s <> "" ->
  map role_content
      (messages (run [KeyDown "Enter" false; Settle (Fulfilled r)] w))
  = (map role_content (messages w)
     ++ [("user", trim (input w)); ("assistant", s)])%list
  /\ input (run [KeyDown "Enter" false; Settle (Fulfilled r)] w) = ""
  /\ loading (run [KeyDown "Enter" false; Settle (Fulfilled r)] w) = false
  /\ error (run [KeyDown "Enter" false; Settle (Fulfilled r)] w) = None
  /\ banner (render (run [KeyDown "Enter" false; Settle (Fulfilled r)] w)) = None
  /\ suspended (run [KeyDown "Enter" false; Settle (Fulfilled r)] w)
     = suspended w.
Proof.
  intros Hne Hok Hj Hf Hs.
  destruct (reply_rule_of_field _ _ Hf Hs) as [Hn Hr].
  cbn [run fold_left]. rewrite step_enter. unfold exec at 1 2 3 4 5 6.
  rewrite (begin_run _ Hne). cbn [snd step suspended].
  unfold exec. rewrite (resume_decoded _ _ _ Hok Hj).
  rewrite (show_reply_run _ _ Hn), Hr, addMessage_run.
  cbn [snd finished wake render messages input loading error banner suspended pred].
  rewrite !map_app. cbn [map role_content role content].
  rewrite <- List.app_assoc. repeat split.
Qed.

Lemma round_trip_reply_witness :
  trim (input typed) <> ""
  /\ map role_content
         (messages (run [KeyDown "Enter" false; Settle (Fulfilled (ok_response paris))]
                        typed))
     = [("assistant", "Write a topic for research.");
        ("user", "capital of France?");
        ("assistant", "Paris is the capital.")].
Proof.
  assert (Hne : trim (input typed) <> "") by (vm_compute; discriminate).
  assert (Hs : "Paris is the capital." <> "") by discriminate.
  split; [exact Hne|].
  destruct (round_trip_reply typed (ok_response paris) paris
              "Paris is the capital." Hne eq_refl eq_refl eq_refl Hs)
    as [Hm _].
  rewrite Hm. reflexivity.
Defined.

(** X9: a question sent with Enter and answered with a status outside
    200..299 is shown to the user twice over: the page draws the line
    "Error: Backend error: <status> <body>", and the conversation gains the
    question, on the right, followed by the apology, on the left.  The Send
    button is enabled again and the text area is empty. *)
Theorem failure_is_shown (w : World) (r : Response) (text : string) :
  trim (input w) <> "" ->
  resp_ok r = false ->
  resp_text r = Fulfilled text ->
  banner (render (run [KeyDown "Enter" false; Settle (Fulfilled r)] w))
  = Some ("Error: Backend error: " ++ N_to_string (resp_status r) ++ " " ++ text)
  /\ button_disabled (render (run [KeyDown "Enter" false; Settle (Fulfilled r)] w))
     = false
  /\ button_label (render (run [KeyDown "Enter" false; Settle (Fulfilled r)] w))
     = "Send"
  /\ textarea_value (render (run [KeyDown "Enter" false; Settle (Fulfilled r)] w))
     = ""
  /\ exists question key,
       bubbles (render (run [KeyDown "Enter" false; Settle (Fulfilled r)] w))
       = (bubbles (render w) ++ [question; apology_bubble key])%list
       /\ bubble_text question = trim (input w)
       /\ bubble_label question = "user"
       /\ row_class question = "max-w-[85%] ml-auto text-right".
Proof.
  intros Hne Hok Ht.
  cbn [run fold_left]. rewrite step_enter. unfold exec at 1 2 3 4 5.
  rewrite (begin_run _ Hne). cbn [snd step suspended].
  unfold exec. rewrite (resume_http_failure _ _ _ Hok Ht).
  cbn [snd caught wake render messages input loading error banner
       button_disabled button_label textarea_value bubbles message_of].
  repeat split.
  do 2 eexists. rewrite !map_app. cbn [map]. rewrite <- List.app_assoc.
  repeat split.
Qed.

Lemma failure_is_shown_witness :
  trim (input typed) <> ""
  /\ banner (render (run [KeyDown "Enter" false;
                          Settle (Fulfilled (error_response 503 "overloaded"))]
                         typed))
     = Some "Error: Backend error: 503 overloaded".
Proof.
  assert (Hne : trim (input typed) <> "") by (vm_compute; discriminate).
  split; [exact Hne|].
  destruct (failure_is_shown typed (error_response 503 "overloaded") "overloaded"
              Hne eq_refl eq_refl)
    as [Hb _].
  rewrite Hb. reflexivity.
Defined.

Lemma forEach_app (a b : list json) (f : json -> M unit) (w : World) :
  forEach (a ++ b) f w
  = match forEach a f w with
    | (Normal _, w') => forEach b f w'
    | (Throw e, w') => (Throw e, w')
    end.
Proof.
  revert w. induction a as [|x a IH]; intros w; [reflexivity|].
  cbn [app]. rewrite !forEach_cons.
  destruct (f x w) as [[u|e] w1]; [apply IH|reflexivity].
Qed.

Lemma rules_without_reply_string (data : json) (entries : list json) :
  is_string (field data "reply") = false ->
  field data "messages" = Some (JArray entries) ->
  data <> JNull /\ reply_rule data = None /\ messages_rule data = Some entries.
Proof.
  intros Hs Hm.
  assert (Hr : reply_rule data = None).
  { unfold reply_rule. unfold is_string in Hs.
    destruct (field data "reply") as [[ | | | | | ]|]; try reflexivity.
    discriminate Hs. }
  split; [intros ->; discriminate Hm|]. split; [exact Hr|].
  unfold messages_rule. now rewrite Hr, Hm.
Qed.

(** X10: when the [messages] array of a 2xx reply holds a [null] entry, the
    entries before it are shown (one message each, in order, when they are
    usable), the [null] entry and all entries after it are dropped, the
    apology follows, and [error] reads that a property of [null] could not
    be read; [loading] is off. *)
Theorem null_entry_cuts_reply (w : World) (r : Response) (data : json)
    (good rest : list json) :
  resp_ok r = true ->
  resp_json r = Fulfilled data ->
  is_string (field data "reply") = false ->
  field data "messages" = Some (JArray (good ++ JNull :: rest)) ->
  Forall usable good ->
  exists l m,
    messages (exec (sendMessage_resume (Fulfilled r)) w)
    = (messages w ++ l ++ [m])%list
    /\ Forall2 (fun entry shown =>
                  role shown = spec_role entry /\
                  ToString (spec_content entry) = Normal (content shown))
               good l
    /\ role m = "assistant" /\ content m = apology
    /\ error (exec (sendMessage_resume (Fulfilled r)) w)
       = Some "Cannot read properties of null (reading 'role')"
    /\ loading (exec (sendMessage_resume (Fulfilled r)) w) = false.
Proof.
  intros Hok Hj Hs Hm Hu.
  destruct (rules_without_reply_string _ _ Hs Hm) as [Hn [Hr Hmr]].
  destruct (forEach_usable good w Hu) as [Hgood [l [Hl Hf]]].
  unfold exec in *. rewrite (resume_decoded _ _ _ Hok Hj).
  rewrite (show_reply_run _ _ Hn), Hr, Hmr, forEach_app.
  destruct (forEach good show_entry w) as [[[]|e] w1]; [|discriminate Hgood].
  rewrite forEach_cons, show_entry_null. cbn [snd] in Hl |- *.
  exists l. eexists. cbn [caught messages error loading].
  rewrite Hl, <- List.app_assoc. repeat split. exact Hf.
Qed.

Lemma null_entry_cuts_reply_witness :
  map role_content
      (messages (exec (sendMessage_resume (Fulfilled (ok_response broken_reply)))
                      (mounted ticking)))
  = [("assistant", "Write a topic for research."); ("user", "hi");
     ("assistant", apology)].
Proof.
  assert (Hu : Forall usable
                 [JObject [("role", JString "user"); ("content", JString "hi")]])
    by (repeat constructor; discriminate).
  destruct (null_entry_cuts_reply (mounted ticking) (ok_response broken_reply)
              broken_reply
              [JObject [("role", JString "user"); ("content", JString "hi")]]
              [JObject [("text", JString "lost")]]
              eq_refl eq_refl eq_refl eq_refl Hu)
    as [l [m [Hm [Hf [Hr [Hc _]]]]]].
  rewrite Hm.
  inversion Hf as [|e1 m1 r1 l1 [Hr1 Hc1] Hf1]; subst.
  inversion Hf1; subst.
  destruct m as [i ro c], m1 as [i1 ro1 c1].
  vm_compute in Hr1, Hc1. injection Hc1 as <-.
  cbn [role content] in Hr, Hc. subst. reflexivity.
Defined.

(** X11: a decoded reply to which neither the [reply] rule nor the
    [messages] rule applies, and which is not [null], is shown as exactly
    one message from the assistant: a string verbatim, anything else
    (number, boolean, array, object) as its JSON text. *)
Theorem other_replies_shown (data : json) (w : World) :
  data <> JNull ->
  reply_rule data = None ->
  messages_rule data = None ->
  fst (show_reply data w) = Normal tt /\
  exists m,
    messages (exec (show_reply data) w) = (messages w ++ [m])%list
    /\ role m = "assistant"
    /\ content m = match data with
                   | JString s => s
                   | _ => JSON_stringify data
                   end.
Proof.
  intros Hn Hr Hm. unfold exec.
  rewrite (show_reply_run _ _ Hn), Hr, Hm.
  destruct data; rewrite addMessage_run;
    (split; [reflexivity|]; eexists; repeat split).
Qed.

Lemma other_replies_shown_witness :
  unrecognised <> JNull
  /\ exists m,
       messages (exec (show_reply unrecognised) (mounted stuck))
       = (messages (mounted stuck) ++ [m])%list
       /\ role m = "assistant"
       /\ content m = "{" ++ QuoteJSONString "foo" ++ ":1}".
Proof.
  split; [discriminate|].
  apply (other_replies_shown unrecognised (mounted stuck));
    [discriminate|reflexivity|reflexivity].
Defined.

(** ** The conversation as drawn *)

(** X12: in every state the mounted component reaches, the page draws one
    bubble per message, in the order of the conversation, keyed by the
    identifier of the message and holding its content; a message of the
    user is drawn on the right in blue, and every other message on the
    left in grey, labelled [assistant] or [system]. *)
Theorem bubbles_follow_conversation (e : Env) (evs : list Event) :
  map bubble_key (bubbles (render (run evs (mounted e))))
  = map id (messages (run evs (mounted e)))
  /\ map bubble_text (bubbles (render (run evs (mounted e))))
     = map content (messages (run evs (mounted e)))
  /\ Forall (fun b =>
               (bubble_label b = "user"
                /\ row_class b = "max-w-[85%] ml-auto text-right"
                /\ box_class b
                   = "inline-block px-4 py-2 rounded-2xl break-words bg-blue-500 text-white")
               \/ ((bubble_label b = "assistant" \/ bubble_label b = "system")
                   /\ row_class b = "max-w-[85%] mr-auto text-left"
                   /\ box_class b
                      = "inline-block px-4 py-2 rounded-2xl break-words bg-gray-100 text-gray-900"))
            (bubbles (render (run evs (mounted e)))).
Proof.
  pose proof (sound_roles _ (Sound_run evs _ (Sound_mounted e))) as Hroles.
  cbn [render bubbles]. rewrite !map_map. cbn [bubble_key bubble_text].
  split; [reflexivity|]. split; [reflexivity|].
  apply Forall_map.
  eapply Forall_impl; [|exact Hroles].
  intros m [Hr|[Hr|Hr]]; cbn [bubble_label row_class box_class]; rewrite Hr.
  - left. repeat split.
  - right. split; [left; reflexivity|]. split; reflexivity.
  - right. split; [right; reflexivity|]. split; reflexivity.
Qed.
